(** * rsvp: startup bootstrap, template registry and request dispatch

    A shallow embedding of [main.go].  The program is a sequence of effects on
    process-wide state (the environment, the template namespace, the log), so
    it is written here in a small state monad whose computations either return
    or leave the process ([log.Fatal], [os.Exit], a panic).  Everything the
    program receives from outside (the [.env] file, the embedded template
    tree, the database, the listener) is gathered in one record, [Host].

    The functions of [main.go] keep their names.  The library calls they make
    are written out after the libraries' own code and documentation:
    [strings.Split], [TrimPrefix] and [TrimSuffix]; [os.LookupEnv] and
    [os.Setenv] (as on Unix); [bufio.Scanner] as the lines it delivers;
    [fs.WalkDir] as the calls it makes; html/template as a namespace of names
    bound to a parsed tree or to none, its parser and executor being
    parameters; pgx's [QueryRow(...).Scan]; net/http's [ServeMux] for patterns
    without a host.  A process is watched while it serves a finite list of
    requests, one after the other. *)

From Stdlib Require Import ZArith String Ascii List Lia.
From stdpp Require Import base option list strings pretty gmap.

Set Warnings "-register-all".

Local Open Scope string_scope.
Local Open Scope list_scope.

(** ** Go strings *)

Module GoStrings.

Definition NUL : ascii := "000"%char.
Definition LF : ascii := "010"%char.
Definition DQUOTE : ascii := "034"%char.
Definition EQUALS : ascii := "="%char.
Definition SLASH : ascii := "/"%char.

(** [%q]-style quoting as [fmt] does it for the plain names used here. *)
Definition quoted (s : string) : string :=
  String DQUOTE s +:+ String DQUOTE "".

Fixpoint contains_byte (c : ascii) (s : string) : bool :=
  match s with
  | EmptyString => false
  | String a s' => Ascii.eqb a c || contains_byte c s'
  end.

Fixpoint count_byte (c : ascii) (s : string) : nat :=
  match s with
  | EmptyString => 0
  | String a s' => (if Ascii.eqb a c then 1 else 0) + count_byte c s'
  end.

(** [strings.Split(s, sep)] for a one-byte separator: every occurrence of the
    separator cuts, so the result has one more part than [s] has separators. *)
Fixpoint Split (s : string) (sep : ascii) : list string :=
  match s with
  | EmptyString => [EmptyString]
  | String a s' =>
      if Ascii.eqb a sep then EmptyString :: Split s' sep
      else match Split s' sep with
           | [] => [String a EmptyString]
           | p :: ps => String a p :: ps
           end
  end.

(** [strings.HasPrefix], [strings.TrimPrefix]. *)
Fixpoint HasPrefix (s prefix : string) {struct prefix} : bool :=
  match prefix, s with
  | EmptyString, _ => true
  | String _ _, EmptyString => false
  | String b p', String a s' => Ascii.eqb a b && HasPrefix s' p'
  end.

Fixpoint drop_bytes (n : nat) (s : string) : string :=
  match n, s with
  | O, _ => s
  | S _, EmptyString => EmptyString
  | S n', String _ s' => drop_bytes n' s'
  end.

Definition TrimPrefix (s prefix : string) : string :=
  if HasPrefix s prefix then drop_bytes (String.length prefix) s else s.

(** [strings.HasSuffix], [strings.TrimSuffix]. *)
Fixpoint HasSuffix (s suffix : string) : bool :=
  String.eqb s suffix ||
  match s with
  | EmptyString => false
  | String _ s' => HasSuffix s' suffix
  end.

Fixpoint take_bytes (n : nat) (s : string) : string :=
  match n, s with
  | O, _ => EmptyString
  | S _, EmptyString => EmptyString
  | S n', String a s' => String a (take_bytes n' s')
  end.

Definition TrimSuffix (s suffix : string) : string :=
  if HasSuffix s suffix
  then take_bytes (String.length s - String.length suffix) s
  else s.

Definition last_byte (s : string) : option ascii :=
  last (list_ascii_of_string s).


End GoStrings.
Import GoStrings.

(** ** Results, process outcomes, observable events *)

(** A Go [(value, error)] pair. *)
Inductive result (A : Type) : Type :=
| Ok (a : A)
| Err (msg : string).
Arguments Ok {A} a.
Arguments Err {A} msg.

(** How a computation ends: it returns, or the whole process ends with
    [os.Exit] ([log.Fatal] and [log.Fatalf] exit with status 1), or it panics. *)
Inductive outcome (A : Type) : Type :=
| Ret (a : A)
| Exit (code : Z)
| Panic (msg : string).
Arguments Ret {A} a.
Arguments Exit {A} code.
Arguments Panic {A} msg.

(** What the process does that can be seen from outside, in order. *)
Inductive event : Type :=
| Log (msg : string)                  (* a line of the standard logger *)
| Stdout (msg : string)               (* fmt.Printf *)
| Connect (url : string) (conn : nat) (* pgx.Connect returned connection [conn] *)
| Query (conn : nat) (sql : string)   (* a query sent on [conn] *)
| Listen (addr : string)              (* the listener is bound *)
| WriteBody (body : string)           (* bytes written to the ResponseWriter *)
| WriteHeader (status : Z)             (* the status line, w.WriteHeader *)
| Redirected (location : string).     (* the Location of a redirect of the mux *)

(** The value handed to a template: a struct, as its fields in order. *)
Definition Data : Type := list (string * string).

(** ** The libraries the program is linked with *)

(** [html/template]: parsing a body and executing (escaping included) a parsed
    template against the namespace it lives in.  A body is taken to define its
    own template only. *)
Class TemplateEngine : Type := {
  Tree : Type;
  Parse : string -> result Tree;
  Execute : gmap string (option Tree) -> Tree -> Data -> result string
}.

(** [pgx]: the cells of a result row and how one binds to a Go [int] or
    [string] destination. *)
Class RowCodec : Type := {
  Value : Type;
  ScanInt : Value -> result Z;
  ScanString : Value -> result string
}.

(** ** The host: what the process is given *)

(** One successful [scanner.Scan()]: the line [scanner.Text()] returns and what
    [scanner.Err()] answers while that line is being handled. *)
Record ScanToken : Type := {
  Text : string;
  ScanErr : option string
}.

(** The scan of a file: the lines it delivers and the error it ended with,
    if any ([scanner.Scan()] answered false and [scanner.Err()] is not nil, as
    for a line longer than [bufio.MaxScanTokenSize], which is not delivered). *)
Record EnvFile : Type := Scanned {
  tokens : list ScanToken;
  scan_end : option string
}.

(** An entry of the embedded file system.  [content] is what opening and
    reading the file gives; [readdir] is the error of listing the directory,
    if any. *)
Inductive Node : Type :=
| File (name : string) (content : result string)
| Dir (name : string) (readdir : option string) (entries : list Node).

Definition node_name (n : Node) : string :=
  match n with
  | File name _ => name
  | Dir name _ _ => name
  end.

Record Host `{RowCodec} : Type := {
  dotenv : result EnvFile;                 (* os.Open(".env") and its scan *)
  templateFS : result Node;                (* Err: the root cannot be stat'ed *)
  pgx_Connect : string -> result unit;     (* by connection string *)
  pgx_Query : nat -> string -> result (list (list Value));
                                           (* the rows a query gives on a connection *)
  http_Listen : string -> result unit      (* binding the listener to an address *)
}.

(** ** Process state *)

Record State `{TemplateEngine} : Type := {
  environ : gmap string string;            (* the process environment *)
  rootTemplate : gmap string (option Tree);(* the namespace; None = no tree yet *)
  trace : list event;
  conns : nat;                             (* connections opened so far *)
  deferred : list nat                      (* closes deferred in main's frame *)
}.

Definition with_environ `{TemplateEngine} (st : State) (env : gmap string string) : State :=
  {| environ := env; rootTemplate := rootTemplate st; trace := trace st;
     conns := conns st; deferred := deferred st |}.

Definition with_rootTemplate `{TemplateEngine} (st : State)
    (reg : gmap string (option Tree)) : State :=
  {| environ := environ st; rootTemplate := reg; trace := trace st;
     conns := conns st; deferred := deferred st |}.

Definition add_events `{TemplateEngine} (st : State) (evs : list event) : State :=
  {| environ := environ st; rootTemplate := rootTemplate st;
     trace := trace st ++ evs; conns := conns st; deferred := deferred st |}.

Inductive HandlerRef : Type :=
| PrimaryHandler (db : nat)                (* &Handler{db: db} *)
| AdminHandlerRef.                         (* &AdminHandler{} *)

(** What the mux reads of a [*http.Request]: [r.Method], [r.RequestURI] (the
    target as the request line has it) and [r.URL.Path]. *)
Record Request : Type := {
  Method : string;
  RequestURI : string;
  URLPath : string
}.

(** The answer of [ServeMux.Handler]. *)
Inductive Route : Type :=
| Serve (h : HandlerRef)
| RedirectTo (location : string)
| NotFound.

Section Program.
Context `{TemplateEngine} `{RowCodec}.
Variable host : Host.

Definition M (A : Type) : Type := State -> outcome A * State.

#[global] Instance M_ret : MRet M := fun A a st => (Ret a, st).
#[global] Instance M_bind : MBind M := fun A B f m st =>
  match m st with
  | (Ret a, st') => f a st'
  | (Exit c, st') => (Exit c, st')
  | (Panic e, st') => (Panic e, st')
  end.

Definition emit (e : event) : M unit := fun st => (Ret tt, add_events st [e]).

Definition os_Exit {A} (code : Z) : M A := fun st => (Exit code, st).
Definition panic {A} (msg : string) : M A := fun st => (Panic msg, st).

Definition log_Print (msg : string) : M unit := emit (Log msg).
Definition log_Fatal {A} (msg : string) : M A := emit (Log msg);; os_Exit 1.

(** *** The environment *)

(** [syscall.Setenv] refuses (EINVAL) an empty key, a key holding '=' or NUL,
    and a value holding NUL. *)
Definition setenv_accepts (key value : string) : bool :=
  negb (String.eqb key EmptyString) &&
  negb (contains_byte EQUALS key) && negb (contains_byte NUL key) &&
  negb (contains_byte NUL value).

(** [os.LookupEnv]: [None] is [ok == false]; the empty name is never found. *)
Definition lookup_env (env : gmap string string) (key : string) : option string :=
  if String.eqb key EmptyString then None else env !! key.

Definition os_LookupEnv (key : string) : M (option string) := fun st =>
  (Ret (lookup_env (environ st) key), st).

Definition os_Getenv (key : string) : M string :=
  r ← os_LookupEnv key; mret (default EmptyString r).

(** [os.Setenv]; the answer is its error. *)
Definition os_Setenv (key value : string) : M (option string) := fun st =>
  if setenv_accepts key value
  then (Ret None, with_environ st (<[key := value]> (environ st)))
  else (Ret (Some "setenv: invalid argument"), st).

Definition env_notice (key value : string) : string :=
  "ENV[" +:+ key +:+ "] is unset: Using .env value " +:+ quoted value.

Definition malformed_diag (line : string) : string :=
  "Malformed line in .env: " +:+ line.

(** The body of the scan loop of [loadEnv]. *)
Definition loadEnv_line (tok : ScanToken) : M unit :=
  let line := Text tok in
  let parts := Split line EQUALS in
  if negb (Nat.eqb (length parts) 2) then log_Fatal (malformed_diag line)
  else
    let key := nth 0 parts EmptyString in
    let value := nth 1 parts EmptyString in
    r ← os_LookupEnv key;
    match r with
    | None => log_Print (env_notice key value);; _ ← os_Setenv key value; mret tt
    | Some _ => mret tt
    end;;
    match ScanErr tok with
    | Some e => log_Fatal e
    | None => mret tt
    end.

Fixpoint loadEnv_scan (toks : list ScanToken) : M unit :=
  match toks with
  | [] => mret tt
  | tok :: rest => loadEnv_line tok;; loadEnv_scan rest
  end.

(** [scanner.Err()] is looked at inside the loop only: the error a scan ends
    with, [scan_end], is never read. *)
Definition loadEnv : M unit :=
  match dotenv host with
  | Err e => log_Fatal e
  | Ok file => loadEnv_scan (tokens file)
  end.

Definition not_set_diag (name : string) : string :=
  "ENV variable " +:+ name +:+ " is not set" +:+ String LF EmptyString.

Definition fetchEnv (name : string) : M string :=
  r ← os_LookupEnv name;
  match r with
  | None => emit (Stdout (not_set_diag name));; os_Exit 1
  | Some value => mret value
  end.

Definition fetchEnvDef (name default_value : string) : M string :=
  r ← os_LookupEnv name;
  match r with
  | None => mret default_value
  | Some value => mret value
  end.

(** *** The template namespace *)

Definition set_rootTemplate (reg : gmap string (option Tree)) : M unit := fun st =>
  (Ret tt, with_rootTemplate st reg).

Definition get_rootTemplate : M (gmap string (option Tree)) := fun st =>
  (Ret (rootTemplate st), st).

(** [template.New(name)] of html/template: a fresh namespace whose only entry
    is the still empty template [name]. *)
Definition template_New (name : string) : gmap string (option Tree) :=
  {[ name := None ]}.

(** [t.New(name)]: the name is entered in the shared namespace at once, bound
    to a template without a tree (an entry of that name is replaced). *)
Definition Template_New (name : string) : M unit :=
  reg ← get_rootTemplate; set_rootTemplate (<[name := None]> reg).

(** [t.Parse(text)] on the template [name]; the answer is its error.  A body
    that does not parse leaves the entry as [Template_New] made it.  Bodies
    are taken to define no further template (no [{{define}}] or [{{block}}])
    and not to be empty: such a body enters further names, and an empty one
    leaves an earlier definition of its name in place. *)
Definition Template_Parse (name text : string) : M (option string) :=
  match Parse text with
  | Err e => mret (Some e)
  | Ok tree =>
      reg ← get_rootTemplate;
      set_rootTemplate (<[name := Some tree]> reg);;
      mret None
  end.

Definition defined_names (reg : gmap string (option Tree)) : list string :=
  omap (fun e : string * option Tree =>
          match snd e with
          | Some _ => Some (fst e)
          | None => None
          end) (map_to_list reg).

(** [t.DefinedTemplates()]; Go leaves the order of the names open. *)
Definition DefinedTemplates (reg : gmap string (option Tree)) : string :=
  match defined_names reg with
  | [] => EmptyString
  | n :: ns =>
      "; defined templates are: " +:+ quoted n +:+
      fold_right (fun m acc => ", " +:+ quoted m +:+ acc) EmptyString ns
  end.

Definition undefined_diag (name : string) : string :=
  "html/template: " +:+ quoted name +:+ " is undefined".
Definition incomplete_diag (name : string) : string :=
  "html/template: " +:+ quoted name +:+ " is an incomplete template".

(** [t.ExecuteTemplate(w, name, data)]; the answer is its error.  What a
    failing execution had already written is not kept. *)
Definition ExecuteTemplate (name : string) (data : Data) : M (option string) :=
  reg ← get_rootTemplate;
  match reg !! name with
  | None => mret (Some (undefined_diag name))
  | Some None => mret (Some (incomplete_diag name))
  | Some (Some tree) =>
      match Execute reg tree data with
      | Err e => mret (Some e)
      | Ok out => emit (WriteBody out);; mret None
      end
  end.

(** *** Walking the embedded tree *)

(** One call of the function given to [fs.WalkDir]: the path, whether the
    entry is a directory, the error handed in, and (for a file) what opening
    and reading that path gives. *)
Record Visit : Type := {
  v_path : string;
  v_isDir : bool;
  v_err : option string;
  v_file : result string
}.

(** [path.Join(dir, name)] for the names of a file system. *)
Definition path_Join (dir name : string) : string :=
  if String.eqb dir "." then name else dir +:+ "/" +:+ name.

Fixpoint walkDir (path : string) (n : Node) : list Visit :=
  match n with
  | File _ content =>
      [{| v_path := path; v_isDir := false; v_err := None; v_file := content |}]
  | Dir _ readdir entries =>
      {| v_path := path; v_isDir := true; v_err := None; v_file := Err "is a directory" |}
      :: match readdir with
         | Some e => [{| v_path := path; v_isDir := true; v_err := Some e;
                         v_file := Err "is a directory" |}]
         | None => []
         end
      ++ (fix children (l : list Node) : list Visit :=
            match l with
            | [] => []
            | d :: l' => walkDir (path_Join path (node_name d)) d ++ children l'
            end) entries
  end.

(** [fs.WalkDir(fsys, root, fn)], as the calls of [fn] it makes when [fn]
    always answers nil. *)
Definition fs_WalkDir (fsys : result Node) (root : string) : list Visit :=
  match fsys with
  | Err e => [{| v_path := root; v_isDir := false; v_err := Some e; v_file := Err e |}]
  | Ok n => walkDir root n
  end.

Definition template_name (path : string) : string :=
  TrimSuffix (TrimPrefix path "templates/") ".tmpl".

(** The function literal of [loadTemplates]. *)
Definition loadTemplates_visit (v : Visit) : M unit :=
  match v_err v with
  | Some e => log_Fatal e
  | None =>
      if negb (v_isDir v) then
        let name := template_name (v_path v) in
        log_Print ("Template " +:+ name);;
        match v_file v with
        | Err e => log_Fatal e
        | Ok bytes =>
            Template_New name;;
            _ ← Template_Parse name bytes;
            mret tt
        end
      else mret tt
  end.

Fixpoint for_each {A} (f : A -> M unit) (l : list A) : M unit :=
  match l with
  | [] => mret tt
  | a :: l' => f a;; for_each f l'
  end.

Definition loadTemplates : M unit :=
  set_rootTemplate (template_New EmptyString);;
  for_each loadTemplates_visit (fs_WalkDir (templateFS host) ".");;
  reg ← get_rootTemplate;
  log_Print (DefinedTemplates reg).

(** *** The database *)

(** A connection that [pgx.Connect] returned: connections are numbered in the
    order they are made. *)
Definition new_conn (url : string) : M nat := fun st =>
  let conn := conns st in
  (Ret conn, {| environ := environ st; rootTemplate := rootTemplate st;
                trace := trace st ++ [Connect url conn];
                conns := S conn; deferred := deferred st |}).

Definition connectDB : M nat :=
  url ← os_Getenv "DATABASE_URL";
  match pgx_Connect host url with
  | Err e => log_Fatal e
  | Ok _ => new_conn url
  end.

Definition init : M unit :=
  loadEnv;;
  loadTemplates;;
  _ ← connectDB;
  mret tt.

Definition users_query : string := "select * from users".

(** [conn.QueryRow(ctx, sql).Scan(&id, &name)] of pgx: the first row of the
    result is bound (the others are read and dropped), no row is [ErrNoRows],
    and the row must have as many cells as there are destinations. *)
Definition QueryRow_Scan (rows : result (list (list Value))) : result (Z * string) :=
  match rows with
  | Err e => Err e
  | Ok [] => Err "no rows in result set"
  | Ok (row :: _) =>
      match row with
      | [c1; c2] =>
          match ScanInt c1 with
          | Err e => Err e
          | Ok id =>
              match ScanString c2 with
              | Err e => Err e
              | Ok name => Ok (id, name)
              end
          end
      | _ => Err ("number of field descriptions must equal number of destinations, got "
                  +:+ pretty (length row) +:+ " and 2")
      end
  end.

Definition render (name : string) (data : Data) : M unit :=
  log_Print ("Rendering template " +:+ name);;
  err ← ExecuteTemplate name data;
  match err with
  | Some e => log_Fatal e
  | None => mret tt
  end.

(** [Handler.ServeHTTP]; [db] is the handler's [h.db]. *)
Definition Handler_ServeHTTP (db : nat) (req : Request) : M unit :=
  emit (Query db users_query);;
  match QueryRow_Scan (pgx_Query host db users_query) with
  | Err e => log_Fatal ("Query failed: " +:+ e)
  | Ok (_, Name) => render "hello" [("Name", Name)]
  end.

(** [AdminHandler.ServeHTTP]. *)
Definition AdminHandler_ServeHTTP (req : Request) : M unit :=
  emit (WriteBody "Admin foo").

(** *** The request multiplexer (net/http's ServeMux, host-less patterns)

    The default mux, as the patterns registered so far with their handlers.
    A pattern that ends in '/' names a subtree, any other a single path; a
    request's path is matched as a whole, the query string playing no part. *)

Definition ServeMux : Type := list (string * HandlerRef).

Definition registered (mux : ServeMux) (pattern : string) : option HandlerRef :=
  snd <$> find (fun e => String.eqb (fst e) pattern) mux.

(** [http.Handle(pattern, handler)]: it panics on an empty pattern and on a
    pattern registered before. *)
Definition http_Handle (pattern : string) (h : HandlerRef) (mux : ServeMux) : M ServeMux :=
  if String.eqb pattern EmptyString then panic "http: invalid pattern"
  else match registered mux pattern with
       | Some _ => panic ("http: multiple registrations for " +:+ pattern)
       | None => mret (mux ++ [(pattern, h)])
       end.

Definition ends_with_slash (s : string) : bool :=
  match last_byte s with
  | Some c => Ascii.eqb c SLASH
  | None => false
  end.

(** The longest registered subtree pattern (one ending in '/') that is a
    prefix of the path. *)
Definition longest_subtree (mux : ServeMux) (path : string) : option (string * HandlerRef) :=
  fold_left (fun best e =>
               if ends_with_slash (fst e) && HasPrefix path (fst e) then
                 match best with
                 | Some b => if Nat.ltb (String.length (fst b)) (String.length (fst e))
                             then Some e else best
                 | None => Some e
                 end
               else best) mux None.

(** [mux.match]: an exact pattern first, then the longest subtree. *)
Definition mux_match (mux : ServeMux) (path : string) : Route :=
  match registered mux path with
  | Some h => Serve h
  | None => match longest_subtree mux path with
            | Some e => Serve (snd e)
            | None => NotFound
            end
  end.

(** [path.Clean] on a rooted path: empty and "." elements go, ".." drops the
    element before it (and itself, at the root). *)
Definition clean_elements (elems : list string) : list string :=
  fold_left (fun acc e =>
               if String.eqb e EmptyString || String.eqb e "." then acc
               else if String.eqb e ".." then removelast acc
               else acc ++ [e]) elems [].

Definition join_rooted (elems : list string) : string :=
  match elems with
  | [] => "/"
  | _ => fold_right (fun e acc => "/" +:+ e +:+ acc) EmptyString elems
  end.

Definition path_Clean (p : string) : string :=
  join_rooted (clean_elements (Split p SLASH)).

(** [cleanPath] of net/http: the canonical path, the trailing slash kept. *)
Definition cleanPath (p : string) : string :=
  if String.eqb p EmptyString then "/"
  else
    let p := if HasPrefix p "/" then p else "/" +:+ p in
    let np := path_Clean p in
    if ends_with_slash p && negb (String.eqb np "/") then np +:+ "/" else np.

(** [shouldRedirect]: a subtree root named without its trailing slash. *)
Definition shouldRedirect (mux : ServeMux) (path : string) : bool :=
  match registered mux path with
  | Some _ => false
  | None =>
      if Nat.eqb (String.length path) 0 then false
      else match registered mux (path +:+ "/") with
           | Some _ => negb (ends_with_slash path)
           | None => false
           end
  end.

(** [mux.Handler(r)]. *)
Definition mux_Handler (mux : ServeMux) (r : Request) : Route :=
  if String.eqb (Method r) "CONNECT" then
    if shouldRedirect mux (URLPath r) then RedirectTo (URLPath r +:+ "/")
    else mux_match mux (URLPath r)
  else
    let path := cleanPath (URLPath r) in
    if shouldRedirect mux path then RedirectTo (path +:+ "/")
    else if negb (String.eqb path (URLPath r)) then RedirectTo path
    else mux_match mux (URLPath r).

(** [mux.ServeHTTP]: a request whose target is [*] is answered 400 by the mux
    itself; any other goes to the handler found.  A redirect of the mux is
    [http.Redirect] with status 301: the Location header, then the status
    line (the short HTML note after it is not recorded). *)
Definition serve (mux : ServeMux) (r : Request) : M unit :=
  if String.eqb (RequestURI r) "*" then emit (WriteHeader 400)
  else
    match mux_Handler mux r with
    | Serve (PrimaryHandler db) => Handler_ServeHTTP db r
    | Serve AdminHandlerRef => AdminHandler_ServeHTTP r
    | RedirectTo location => emit (Redirected location);; emit (WriteHeader 301)
    | NotFound => emit (WriteHeader 404);;
        emit (WriteBody ("404 page not found" +:+ String LF EmptyString))
    end.

Definition defer_Close (db : nat) : M unit := fun st =>
  (Ret tt, {| environ := environ st; rootTemplate := rootTemplate st;
              trace := trace st; conns := conns st;
              deferred := db :: deferred st |}).

(** [http.ListenAndServe(addr, nil)], watched while it serves [reqs] one
    after the other: it answers its error if the listener cannot be bound,
    and otherwise the process is still serving when the observation ends. *)
Definition http_ListenAndServe (addr : string) (mux : ServeMux)
    (reqs : list Request) : M (option string) :=
  match http_Listen host addr with
  | Err e => mret (Some e)
  | Ok _ => emit (Listen addr);; for_each (serve mux) reqs;; mret None
  end.

(** [main], up to the moment the default mux is complete. *)
Definition main_setup : M (string * ServeMux) :=
  port ← fetchEnv "PORT";
  log_Print ("Running on port " +:+ port);;
  db ← connectDB;
  defer_Close db;;
  adminPath ← fetchEnvDef "ADMIN_PATH" "/admin/";
  log_Print ("Serving admin site from " +:+ adminPath);;
  mux ← http_Handle adminPath AdminHandlerRef [];
  mux ← http_Handle "/" (PrimaryHandler db) mux;
  mret (port, mux).

Definition main (reqs : list Request) : M unit :=
  '(port, mux) ← main_setup;
  err ← http_ListenAndServe (":" +:+ port) mux reqs;
  match err with
  | Some e => log_Fatal e
  | None => mret tt
  end.

(** The process: package initialisation, then [main]. *)
Definition process (reqs : list Request) : M unit :=
  init;; main reqs.

End Program.

Arguments M {_}.

(** The state a process starts in, given its environment. *)
Definition initial `{TemplateEngine} (env : gmap string string) : State :=
  {| environ := env; rootTemplate := ∅; trace := []; conns := 0; deferred := [] |}.

Definition is_Connect (e : event) : bool :=
  match e with Connect _ _ => true | _ => false end.
Definition is_Query (e : event) : bool :=
  match e with Query _ _ => true | _ => false end.
Definition is_Log (e : event) : bool :=
  match e with Log _ => true | _ => false end.
Definition is_Listen (e : event) : bool :=
  match e with Listen _ => true | _ => false end.

(** ** A small template engine and row codec to run the program on

    They have the shape of the two library interfaces and are used where a
    statement is evaluated on a concrete input: a body is text with
    [{{.Field}}] actions, a cell is an integer, a text or NULL. *)

Module Sample.

Inductive piece : Type :=
| Lit (s : string)
| Field (name : string).

Definition field_of (action : string) : option string :=
  match action with
  | String "." name => if String.eqb name EmptyString then None else Some name
  | _ => None
  end.

Definition push (p : piece) (r : result (list piece)) : result (list piece) :=
  match r with
  | Ok ps => Ok (p :: ps)
  | Err e => Err e
  end.

Fixpoint parse_from (in_action : bool) (cur : string) (s : string) : result (list piece) :=
  match s with
  | EmptyString => if in_action then Err "unclosed action" else Ok [Lit cur]
  | String a rest =>
      if in_action then
        match a, rest with
        | "}"%char, String "}"%char rest' =>
            match field_of cur with
            | Some f => push (Field f) (parse_from false EmptyString rest')
            | None => Err "unexpected action"
            end
        | _, _ => parse_from true (cur +:+ String a EmptyString) rest
        end
      else
        match a, rest with
        | "{"%char, String "{"%char rest' =>
            push (Lit cur) (parse_from true EmptyString rest')
        | _, _ => parse_from false (cur +:+ String a EmptyString) rest
        end
  end.

Fixpoint run (ps : list piece) (data : Data) : result string :=
  match ps with
  | [] => Ok EmptyString
  | Lit s :: ps' =>
      match run ps' data with
      | Ok out => Ok (s +:+ out)
      | Err e => Err e
      end
  | Field f :: ps' =>
      match snd <$> find (fun kv => String.eqb (fst kv) f) data with
      | None => Err ("can't evaluate field " +:+ f)
      | Some v =>
          match run ps' data with
          | Ok out => Ok (v +:+ out)
          | Err e => Err e
          end
      end
  end.

#[export] Instance engine : TemplateEngine := {|
  Tree := list piece;
  Parse := parse_from false EmptyString;
  Execute := fun _ t data => run t data
|}.

Inductive cell : Type :=
| CInt (z : Z)
| CText (s : string)
| CNull.

#[export] Instance codec : RowCodec := {|
  Value := cell;
  ScanInt := fun c => match c with
                      | CInt z => Ok z
                      | _ => Err "can't scan into dest[0]"
                      end;
  ScanString := fun c => match c with
                         | CText s => Ok s
                         | _ => Err "can't scan into dest[1]"
                         end
|}.

Definition line (s : string) : ScanToken := {| Text := s; ScanErr := None |}.

Definition hello_tree : Node :=
  Dir "." None [Dir "templates" None [File "hello.tmpl" (Ok "Hello {{.Name}}!")]].

(** A host with the given [.env] lines, tree and users table; every
    connection and the listener succeed. *)
Definition host_of (lines : list string) (tree : Node) (users : list (list cell)) : Host :=
  {| dotenv := Ok (Scanned (map line lines) None);
     templateFS := Ok tree;
     pgx_Connect := fun _ => Ok tt;
     pgx_Query := fun _ _ => Ok users;
     http_Listen := fun _ => Ok tt |}.

Definition GET (path : string) : Request :=
  {| Method := "GET"; RequestURI := path; URLPath := path |}.

(** The state of a process started with the given environment. *)
Definition start (env : list (string * string)) : State :=
  initial (list_to_map env).

End Sample.

(** ** Notions the statements below are written with *)

Section Notions.
Context `{TemplateEngine}.

Definition entry_key (tok : ScanToken) : string := nth 0 (Split (Text tok) EQUALS) EmptyString.
Definition entry_value (tok : ScanToken) : string := nth 1 (Split (Text tok) EQUALS) EmptyString.

(** A line the loop passes: it splits in two and the scanner reports no error. *)
Definition passes (tok : ScanToken) : Prop :=
  length (Split (Text tok) EQUALS) = 2 /\ ScanErr tok = None.

(** What one passing line does to the state. *)
Definition inject_entry (st : State) (tok : ScanToken) : State :=
  match lookup_env (environ st) (entry_key tok) with
  | Some _ => st
  | None =>
      let st1 := add_events st [Log (env_notice (entry_key tok) (entry_value tok))] in
      if setenv_accepts (entry_key tok) (entry_value tok)
      then with_environ st1 (<[entry_key tok := entry_value tok]> (environ st1))
      else st1
  end.

Definition is_env_notice (e : event) : Prop :=
  exists k v, e = Log (env_notice k v).



(** [grows P st st']: from [st] to [st'] the trace gained events that all
    satisfy [P], and no connection was opened or deferred. *)
Definition grows (P : event -> Prop) (st st' : State) : Prop :=
  conns st' = conns st /\ deferred st' = deferred st /\
  exists evs, trace st' = trace st ++ evs /\ Forall P evs.

(** Every run of [m] grows the state by [P]-events only. *)
Definition frames {A} (P : event -> Prop) (m : M A) : Prop :=
  forall st o st', m st = (o, st') -> grows P st st'.

(** Every run of [m] adds [P]-events only to the trace, however it ends. *)
Definition emits {A} (P : event -> Prop) (m : M A) : Prop :=
  forall st o st', m st = (o, st') ->
  exists evs, trace st' = trace st ++ evs /\ Forall P evs.

(** The process has bound its listener: it has started. *)
Definition started (st : State) : Prop :=
  exists addr, In (Listen addr) (trace st).

End Notions.

(** An event that is neither a connection nor a query on another connection
    than [db]. *)
Definition on_conn (db : nat) (e : event) : Prop :=
  is_Connect e = false /\ forall c q, e = Query c q -> c = db.

Definition not_a_query (e : event) : Prop := is_Query e = false.

Definition not_a_listen (e : event) : Prop := is_Listen e = false.

Definition query_on (db : nat) (e : event) : Prop :=
  forall c q, e = Query c q -> c = db.

(** [file_at root n path content]: walking [n] from [root] meets the file
    [path], whose reading gives [content]. *)
Inductive file_at : string -> Node -> string -> result string -> Prop :=
| file_here (path name : string) (content : result string) :
    file_at path (File name content) path content
| file_below (path name : string) (readdir : option string) (entries : list Node)
    (d : Node) (fpath : string) (content : result string) :
    In d entries ->
    file_at (path_Join path (node_name d)) d fpath content ->
    file_at path (Dir name readdir entries) fpath content.

Definition file_visit (path : string) (content : result string) : Visit :=
  {| v_path := path; v_isDir := false; v_err := None; v_file := content |}.


(** ** Notions for what a computation leaves alone and how it ends *)

Section Effects.
Context `{TemplateEngine}.

(** Every run of [m] leaves the part [proj] of the state as it was. *)
Definition preserves {A X} (proj : State -> X) (m : M A) : Prop :=
  forall st o st', m st = (o, st') -> proj st' = proj st.

(** A run of [m] that does not return ends with exit status 1. *)
Definition fails_by_exit_1 {A} (m : M A) : Prop :=
  forall st o st', m st = (o, st') -> (exists a, o = Ret a) \/ o = Exit 1.

(** The error the walk function dies of at a visit, if any: the error handed
    in, or for a file the error of opening or reading it. *)
Definition visit_failure (v : Visit) : option string :=
  match v_err v with
  | Some e => Some e
  | None =>
      if v_isDir v then None
      else match v_file v with
           | Err e => Some e
           | Ok _ => None
           end
  end.

(** What a visit without failure does to the state. *)
Definition visit_state (st : State) (v : Visit) : State :=
  if v_isDir v then st
  else
    match v_file v with
    | Err _ => st
    | Ok body =>
        with_rootTemplate
          (add_events st [Log ("Template " +:+ template_name (v_path v))])
          (<[template_name (v_path v) :=
               match Parse body with Ok tree => Some tree | Err _ => None end]>
             (rootTemplate st))
    end.

End Effects.

(** An event that is neither a connection nor a listener. *)
Definition quiet (e : event) : Prop := is_Connect e = false /\ is_Listen e = false.

(** The mux [main] builds for an admin path: the calls of [http.Handle] in
    their order. *)
Definition admin_mux (adminPath : string) (db : nat) : ServeMux :=
  [(adminPath, AdminHandlerRef); ("/", PrimaryHandler db)].

(** ** Concrete hosts *)

Definition users_env : list string :=
  ["PORT=8080"; "DATABASE_URL=postgres://localhost/rsvp"].

Definition one_user : Host :=
  Sample.host_of users_env Sample.hello_tree [[Sample.CInt 1; Sample.CText "Ada"]].

Definition two_users : Host :=
  Sample.host_of users_env Sample.hello_tree
    [[Sample.CInt 1; Sample.CText "Ada"]; [Sample.CInt 2; Sample.CText "Bob"]].




Definition duplicate_key : Host := Sample.host_of ["A=1"; "A=2"] Sample.hello_tree [].

Definition empty_port : Host := Sample.host_of ["PORT="] Sample.hello_tree [].

Definition unparsable_template : Host :=
  Sample.host_of users_env
    (Dir "." None [Dir "templates" None [File "bad.tmpl" (Ok "{{")]]) [].

(** A host without a [.env] file. *)
Definition no_dotenv : Host :=
  {| dotenv := Err "open .env: no such file or directory";
     templateFS := templateFS one_user;
     pgx_Connect := pgx_Connect one_user;
     pgx_Query := pgx_Query one_user;
     http_Listen := http_Listen one_user |}.

(** A host whose database refuses every connection. *)
Definition database_down : Host :=
  {| dotenv := dotenv one_user;
     templateFS := templateFS one_user;
     pgx_Connect := fun _ => Err "dial error: connection refused";
     pgx_Query := pgx_Query one_user;
     http_Listen := http_Listen one_user |}.

Definition no_port : Host :=
  Sample.host_of ["DATABASE_URL=postgres://localhost/rsvp"] Sample.hello_tree
    [[Sample.CInt 1; Sample.CText "Ada"]].

Definition no_users : Host := Sample.host_of users_env Sample.hello_tree [].

Definition admin_at_root : Host :=
  Sample.host_of (users_env ++ ["ADMIN_PATH=/"]) Sample.hello_tree
    [[Sample.CInt 1; Sample.CText "Ada"]].

(** A tree whose second file cannot be read. *)
Definition unreadable_tree : Node :=
  Dir "." None
    [Dir "templates" None
       [File "a.tmpl" (Ok "A");
        File "b.tmpl" (Err "read templates/b.tmpl: input/output error");
        File "c.tmpl" (Ok "C")]].

Definition unreadable_template : Host := Sample.host_of users_env unreadable_tree [].


(** * What the code does *)

Example Split_three : Split "a=b=c" EQUALS = ["a"; "b"; "c"].
Proof. reflexivity. Qed.
Example Split_none : Split "abc" EQUALS = ["abc"].
Proof. reflexivity. Qed.
Example Split_empty_value : Split "KEY=" EQUALS = ["KEY"; EmptyString].
Proof. reflexivity. Qed.
Example template_name_nested : template_name "templates/sub/x.tmpl" = "sub/x".
Proof. reflexivity. Qed.
Example cleanPath_dots : cleanPath "/a/../b/./c/" = "/b/c/".
Proof. reflexivity. Qed.
Example cleanPath_slashes : cleanPath "/ops//x" = "/ops/x".
Proof. reflexivity. Qed.

(** * The string functions *)

Lemma append_nil (t : string) : EmptyString +:+ t = t.
Proof. reflexivity. Qed.

Lemma append_cons (a : ascii) (s t : string) : String a s +:+ t = String a (s +:+ t).
Proof. reflexivity. Qed.

Ltac app_simpl := rewrite ?append_nil, ?append_cons; simpl; rewrite ?append_nil, ?append_cons.

Lemma append_empty_r (s : string) : s +:+ EmptyString = s.
Proof. induction s as [|a s IH]; app_simpl; [reflexivity | now rewrite IH]. Qed.

Lemma append_assoc' (s t u : string) : (s +:+ t) +:+ u = s +:+ (t +:+ u).
Proof. induction s as [|a s IH]; app_simpl; [reflexivity | now rewrite IH]. Qed.



Lemma Split_length (s : string) (c : ascii) :
  length (Split s c) = S (count_byte c s).
Proof.
  induction s as [|a s IH]; simpl; [reflexivity|].
  destruct (Ascii.eqb a c); simpl.
  - now rewrite IH.
  - destruct (Split s c) as [|p ps]; simpl in *; lia.
Qed.

Lemma Split_no_sep (s : string) (c : ascii) :
  contains_byte c s = false -> Split s c = [s].
Proof.
  induction s as [|a s IH]; simpl; [reflexivity|].
  intros Hc. apply orb_false_iff in Hc as [Ha Hs].
  rewrite Ha, (IH Hs). reflexivity.
Qed.

Lemma Split_cons (k v : string) (c : ascii) :
  contains_byte c k = false ->
  Split (k +:+ String c v) c = k :: Split v c.
Proof.
  induction k as [|a k IH]; app_simpl.
  - intros _. now rewrite Ascii.eqb_refl.
  - intros Hc. apply orb_false_iff in Hc as [Ha Hk].
    rewrite Ha, (IH Hk). reflexivity.
Qed.

Lemma Split_key_value (k v : string) (c : ascii) :
  contains_byte c k = false -> contains_byte c v = false ->
  Split (k +:+ String c v) c = [k; v].
Proof.
  intros Hk Hv. now rewrite Split_cons, Split_no_sep.
Qed.

(** No part holds the separator. *)
Lemma Split_parts_no_sep (s : string) (c : ascii) :
  Forall (fun p => contains_byte c p = false) (Split s c).
Proof.
  induction s as [|a s IH]; simpl.
  - repeat constructor.
  - destruct (Ascii.eqb a c) eqn:E.
    + constructor; [reflexivity | exact IH].
    + destruct (Split s c) as [|p ps].
      * repeat constructor. simpl. now rewrite E.
      * inversion IH as [|? ? Hp Hps]; subst.
        constructor; [simpl; now rewrite E, Hp | exact Hps].
Qed.

(** A line splits in two exactly when it holds one separator. *)
Lemma Split_two_iff (s : string) (c : ascii) :
  length (Split s c) = 2 <-> count_byte c s = 1.
Proof. rewrite Split_length. lia. Qed.

Lemma HasPrefix_app (p s : string) : HasPrefix (p +:+ s) p = true.
Proof.
  induction p as [|a p IH]; app_simpl; [reflexivity|].
  now rewrite Ascii.eqb_refl, IH.
Qed.








(** * Running a computation *)

Section Running.
Context `{TemplateEngine}.

Lemma bind_eq {A B} (m : M A) (f : A -> M B) (st : State) :
  (m ≫= f) st =
  match m st with
  | (Ret a, st') => f a st'
  | (Exit c, st') => (Exit c, st')
  | (Panic e, st') => (Panic e, st')
  end.
Proof. reflexivity. Qed.

Lemma log_Fatal_eq {A} (msg : string) (st : State) :
  log_Fatal (A := A) msg st = (Exit 1, add_events st [Log msg]).
Proof. reflexivity. Qed.

Lemma add_events_nil (st : State) : add_events st [] = st.
Proof. destruct st; unfold add_events; simpl. now rewrite app_nil_r. Qed.

Lemma add_events_app (st : State) (e1 e2 : list event) :
  add_events (add_events st e1) e2 = add_events st (e1 ++ e2).
Proof. unfold add_events; simpl. now rewrite app_assoc. Qed.

End Running.

(** * Loading the fallback file *)

Section EnvFacts.
Context `{TemplateEngine}.

(** One pass of the loop body. *)
Lemma loadEnv_line_malformed (tok : ScanToken) (st : State) :
  length (Split (Text tok) EQUALS) <> 2 ->
  loadEnv_line tok st = (Exit 1, add_events st [Log (malformed_diag (Text tok))]).
Proof.
  intros Hn. unfold loadEnv_line.
  destruct (Nat.eqb_spec (length (Split (Text tok) EQUALS)) 2) as [E|E]; [contradiction|].
  reflexivity.
Qed.

Lemma loadEnv_line_wellformed (tok : ScanToken) (st : State) :
  length (Split (Text tok) EQUALS) = 2 ->
  loadEnv_line tok st =
  match ScanErr tok with
  | None => (Ret tt, inject_entry st tok)
  | Some e => (Exit 1, add_events (inject_entry st tok) [Log e])
  end.
Proof.
  intros Hn. unfold loadEnv_line. rewrite Hn. cbn [Nat.eqb negb].
  fold (entry_key tok) (entry_value tok).
  rewrite bind_eq. unfold os_LookupEnv, inject_entry.
  destruct (lookup_env (environ st) (entry_key tok)) as [x|].
  - rewrite bind_eq. cbn. destruct (ScanErr tok); reflexivity.
  - rewrite !bind_eq. unfold log_Print, emit, os_Setenv. cbn [environ add_events].
    destruct (setenv_accepts (entry_key tok) (entry_value tok));
      cbn; destruct (ScanErr tok); reflexivity.
Qed.

Lemma loadEnv_line_passes (tok : ScanToken) (st : State) :
  passes tok -> loadEnv_line tok st = (Ret tt, inject_entry st tok).
Proof. intros [Hn He]. rewrite loadEnv_line_wellformed, He; auto. Qed.

Lemma loadEnv_line_Ret (tok : ScanToken) (st st' : State) (u : unit) :
  loadEnv_line tok st = (Ret u, st') -> passes tok /\ st' = inject_entry st tok.
Proof.
  intros Hr.
  destruct (Nat.eq_dec (length (Split (Text tok) EQUALS)) 2) as [E|E].
  - rewrite (loadEnv_line_wellformed _ _ E) in Hr.
    destruct (ScanErr tok) eqn:He; [discriminate|].
    split; [split; assumption | congruence].
  - rewrite (loadEnv_line_malformed _ _ E) in Hr. discriminate.
Qed.


Lemma loadEnv_scan_Ret (toks : list ScanToken) (st st' : State) (u : unit) :
  loadEnv_scan toks st = (Ret u, st') ->
  Forall passes toks /\ st' = fold_left inject_entry toks st.
Proof.
  revert st. induction toks as [|tok toks IH]; intros st Hr.
  - inversion Hr. split; [constructor | reflexivity].
  - cbn [loadEnv_scan] in Hr. rewrite bind_eq in Hr.
    destruct (loadEnv_line tok st) as [[[]| |] st1] eqn:Hl; try discriminate.
    apply loadEnv_line_Ret in Hl as [Hp ->].
    apply IH in Hr as [Hall ->]. split; [constructor; assumption | reflexivity].
Qed.

Lemma loadEnv_scan_app (pre post : list ScanToken) (st : State) :
  loadEnv_scan (pre ++ post) st = (loadEnv_scan pre;; loadEnv_scan post) st.
Proof.
  revert st. induction pre as [|tok pre IH]; intros st.
  - reflexivity.
  - cbn [app loadEnv_scan]. rewrite !bind_eq.
    destruct (loadEnv_line tok st) as [[[]| |] st1]; try reflexivity.
    rewrite IH, bind_eq. reflexivity.
Qed.

(** *** What injecting does to the environment *)

Lemma inject_entry_frame (st : State) (tok : ScanToken) :
  rootTemplate (inject_entry st tok) = rootTemplate st /\
  conns (inject_entry st tok) = conns st /\
  deferred (inject_entry st tok) = deferred st /\
  exists evs, trace (inject_entry st tok) = trace st ++ evs /\ Forall is_env_notice evs.
Proof.
  unfold inject_entry.
  destruct (lookup_env (environ st) (entry_key tok)).
  - repeat split; trivial. exists []. now rewrite app_nil_r.
  - destruct (setenv_accepts _ _); cbn; repeat split; trivial;
      (eexists; split; [reflexivity|]); repeat constructor; now eexists _, _.
Qed.


Lemma setenv_accepts_nonempty (k v : string) :
  setenv_accepts k v = true -> k <> EmptyString.
Proof. intros Ha ->. discriminate. Qed.

Lemma lookup_env_nonempty (env : gmap string string) (k : string) :
  k <> EmptyString -> lookup_env env k = env !! k.
Proof. unfold lookup_env. intros Hk. destruct (String.eqb_spec k EmptyString); [contradiction | reflexivity]. Qed.

(** A set variable keeps its value: the file never overrides the environment. *)
Lemma inject_entry_keeps (st : State) (tok : ScanToken) (k x : string) :
  environ st !! k = Some x -> environ (inject_entry st tok) !! k = Some x.
Proof.
  intros Hk. unfold inject_entry.
  destruct (lookup_env (environ st) (entry_key tok)) eqn:Hl; [assumption|].
  destruct (setenv_accepts (entry_key tok) (entry_value tok)) eqn:Ha; cbn; [|assumption].
  destruct (decide (entry_key tok = k)) as [E|Hne].
  - rewrite lookup_env_nonempty in Hl by (eapply setenv_accepts_nonempty; eassumption).
    congruence.
  - now rewrite lookup_insert_ne.
Qed.

Lemma inject_all_keeps (toks : list ScanToken) (st : State) (k x : string) :
  environ st !! k = Some x -> environ (fold_left inject_entry toks st) !! k = Some x.
Proof.
  revert st. induction toks as [|tok toks IH]; intros st Hk; cbn [fold_left]; [assumption|].
  apply IH, inject_entry_keeps, Hk.
Qed.

(** A line leaves the variables it does not name alone. *)
Lemma inject_entry_other (st : State) (tok : ScanToken) (k : string) :
  entry_key tok <> k -> environ (inject_entry st tok) !! k = environ st !! k.
Proof.
  intros Hne. unfold inject_entry.
  destruct (lookup_env (environ st) (entry_key tok)); [reflexivity|].
  destruct (setenv_accepts _ _); cbn; [|reflexivity].
  now rewrite lookup_insert_ne.
Qed.

Lemma inject_all_other (toks : list ScanToken) (st : State) (k : string) :
  Forall (fun tok => entry_key tok <> k) toks ->
  environ (fold_left inject_entry toks st) !! k = environ st !! k.
Proof.
  intros Hall. revert st. induction Hall as [|tok toks Hne _ IH]; intros st; cbn [fold_left].
  - reflexivity.
  - rewrite IH. now apply inject_entry_other.
Qed.

(** An unset variable named by an accepted line gets the line's value. *)
Lemma inject_entry_sets (st : State) (tok : ScanToken) :
  environ st !! entry_key tok = None ->
  setenv_accepts (entry_key tok) (entry_value tok) = true ->
  environ (inject_entry st tok) !! entry_key tok = Some (entry_value tok).
Proof.
  intros Hk Ha. unfold inject_entry.
  rewrite lookup_env_nonempty by (eapply setenv_accepts_nonempty; eassumption).
  rewrite Hk, Ha. cbn. apply lookup_insert_eq.
Qed.

End EnvFacts.

(** ** What loading and the lookups guarantee *)

Section EnvClaims.
Context `{TemplateEngine} `{RowCodec}.

Lemma loadEnv_line_keeps (tok : ScanToken) (st st' : State) (o : outcome unit) (k x : string) :
  loadEnv_line tok st = (o, st') ->
  environ st !! k = Some x -> environ st' !! k = Some x.
Proof.
  intros Hr Hk.
  destruct (Nat.eq_dec (length (Split (Text tok) EQUALS)) 2) as [E|E].
  - rewrite (loadEnv_line_wellformed _ _ E) in Hr.
    destruct (ScanErr tok); inversion Hr; subst; cbn; now apply inject_entry_keeps.
  - rewrite (loadEnv_line_malformed _ _ E) in Hr. inversion Hr; subst. exact Hk.
Qed.

Lemma loadEnv_scan_keeps (toks : list ScanToken) (st st' : State) (o : outcome unit) (k x : string) :
  loadEnv_scan toks st = (o, st') ->
  environ st !! k = Some x -> environ st' !! k = Some x.
Proof.
  revert st. induction toks as [|tok toks IH]; intros st Hr Hk.
  - inversion Hr; subst. exact Hk.
  - cbn [loadEnv_scan] in Hr. rewrite bind_eq in Hr.
    destruct (loadEnv_line tok st) as [[[]| |] st1] eqn:Hl.
    + eapply IH; [exact Hr|]. eapply loadEnv_line_keeps; eassumption.
    + inversion Hr; subst. eapply loadEnv_line_keeps; eassumption.
    + inversion Hr; subst. eapply loadEnv_line_keeps; eassumption.
Qed.

Lemma Split_entry (tok : ScanToken) (k v : string) :
  Split (Text tok) EQUALS = [k; v] ->
  entry_key tok = k /\ entry_value tok = v /\ length (Split (Text tok) EQUALS) = 2.
Proof. unfold entry_key, entry_value. intros ->. auto. Qed.


Lemma fetchEnv_unset (name : string) (st : State) :
  lookup_env (environ st) name = None ->
  fetchEnv name st = (Exit 1, add_events st [Stdout (not_set_diag name)]).
Proof. intros Hl. unfold fetchEnv. rewrite bind_eq. cbn. rewrite Hl. reflexivity. Qed.

Lemma fetchEnv_set (name v : string) (st : State) :
  lookup_env (environ st) name = Some v -> fetchEnv name st = (Ret v, st).
Proof. intros Hl. unfold fetchEnv. rewrite bind_eq. cbn. rewrite Hl. reflexivity. Qed.

Lemma fetchEnvDef_eq (name d : string) (st : State) :
  fetchEnvDef name d st = (Ret (default d (lookup_env (environ st) name)), st).
Proof.
  unfold fetchEnvDef. rewrite bind_eq. cbn.
  destruct (lookup_env (environ st) name); reflexivity.
Qed.

Variable host : Host.


(** The error a scan ended with changes nothing: it is never read. *)
Lemma loadEnv_ignores_scan_end (other : Host) (toks : list ScanToken)
    (fin fin' : option string) (st : State) :
  dotenv host = Ok (Scanned toks fin) ->
  dotenv other = Ok (Scanned toks fin') ->
  loadEnv host st = loadEnv other st.
Proof. intros Hh Ho. unfold loadEnv. now rewrite Hh, Ho. Qed.


(** The key and value of a line are accepted by the environment when the key
    is not empty and neither holds a NUL byte. *)
Lemma setenv_accepts_entry (line k v : string) :
  Split line EQUALS = [k; v] ->
  k <> EmptyString ->
  contains_byte NUL k = false ->
  contains_byte NUL v = false ->
  setenv_accepts k v = true.
Proof.
  intros Hkv Hne Hk Hv. unfold setenv_accepts. rewrite Hk, Hv.
  pose proof (Split_parts_no_sep line EQUALS) as Hsep. rewrite Hkv in Hsep.
  inversion Hsep as [|? ? Hkeq _]; subst. rewrite Hkeq.
  destruct (String.eqb_spec k EmptyString); [contradiction | reflexivity].
Qed.

(** The first line that names an unset variable decides its value. *)
Lemma first_entry_is_set
    (st st' : State) (pre post : list ScanToken) (tok : ScanToken) (k v : string) :
  loadEnv_scan (pre ++ tok :: post) st = (Ret tt, st') ->
  Split (Text tok) EQUALS = [k; v] ->
  setenv_accepts k v = true ->
  environ st !! k = None ->
  Forall (fun t => entry_key t <> k) pre ->
  environ st' !! k = Some v.
Proof.
  intros Hload Hkv Ha Hunset Hfresh.
  apply Split_entry in Hkv as (Ek & Ev & _).
  rewrite loadEnv_scan_app, bind_eq in Hload.
  destruct (loadEnv_scan pre st) as [[[]| |] st1] eqn:Hpre; try discriminate.
  apply loadEnv_scan_Ret in Hpre as [_ ->].
  cbn [loadEnv_scan] in Hload. rewrite bind_eq in Hload.
  destruct (loadEnv_line tok _) as [[[]| |] st2] eqn:Hl; try discriminate.
  apply loadEnv_line_Ret in Hl as [_ ->].
  eapply loadEnv_scan_keeps; [exact Hload|].
  rewrite <- Ek, <- Ev. apply inject_entry_sets.
  - rewrite Ek. now rewrite inject_all_other.
  - now rewrite Ek, Ev.
Qed.

(** C6 (amended): for a well-formed KEY=VALUE line of a fallback file that
    loads to its end, KEY and VALUE being strings the environment accepts
    (KEY not empty, no NUL byte in either): if KEY is unset before loading and
    no earlier line of the file names KEY,
    the environment afterwards maps KEY to exactly VALUE; if KEY was already
    set, its value is unchanged by loading. *)
Theorem loadEnv_first_entry_wins
    (st st' : State) (pre post : list ScanToken) (tok : ScanToken) (fin : option string)
    (k v : string) :
  dotenv host = Ok (Scanned (pre ++ tok :: post) fin) ->
  Split (Text tok) EQUALS = [k; v] ->
  k <> EmptyString ->
  contains_byte NUL k = false ->
  contains_byte NUL v = false ->
  loadEnv host st = (Ret tt, st') ->
  (lookup_env (environ st) k = None ->
   Forall (fun t => entry_key t <> k) pre ->
   lookup_env (environ st') k = Some v) /\
  (forall x, lookup_env (environ st) k = Some x -> lookup_env (environ st') k = Some x).
Proof.
  intros Hfile Hkv Hk Hnulk Hnulv Hload.
  pose proof (setenv_accepts_entry _ _ _ Hkv Hk Hnulk Hnulv) as Ha.
  unfold loadEnv in Hload. rewrite Hfile in Hload. cbn [tokens] in Hload.
  rewrite !lookup_env_nonempty by assumption.
  split.
  - intros Hunset Hfresh. eapply first_entry_is_set; eassumption.
  - intros x Hx. eapply loadEnv_scan_keeps; eassumption.
Qed.


End EnvClaims.

Section EmptyValue.
Context `{TemplateEngine}.

(** C10: a line [KEY=] (one separator, empty value; KEY a name: not empty, no
    NUL byte) passes the loop; when KEY is unset as the line is read, it is
    set to the empty string, and [fetchEnv KEY] after the rest of the load
    returns the empty string instead of ending the process. *)
Theorem empty_value_satisfies_fetchEnv (key : string) (tok : ScanToken) (st : State) :
  Text tok = key +:+ "=" ->
  ScanErr tok = None ->
  key <> EmptyString ->
  contains_byte EQUALS key = false ->
  contains_byte NUL key = false ->
  lookup_env (environ st) key = None ->
  length (Split (Text tok) EQUALS) = 2 /\
  exists st1,
    loadEnv_line tok st = (Ret tt, st1) /\
    lookup_env (environ st1) key = Some EmptyString /\
    forall rest o st2,
      loadEnv_scan rest st1 = (o, st2) -> fetchEnv key st2 = (Ret EmptyString, st2).
Proof.
  intros Htext Herr Hne Heq Hnul Hunset.
  assert (setenv_accepts key EmptyString = true) as Ha.
  { unfold setenv_accepts. rewrite Heq, Hnul.
    destruct (String.eqb_spec key EmptyString); [contradiction | reflexivity]. }
  assert (Split (Text tok) EQUALS = [key; EmptyString]) as Hkv.
  { rewrite Htext. now apply Split_key_value. }
  destruct (Split_entry _ _ _ Hkv) as (Ek & Ev & Hlen).
  split; [exact Hlen|].
  exists (inject_entry st tok).
  assert (environ (inject_entry st tok) !! key = Some EmptyString) as Hset.
  { pose proof (inject_entry_sets st tok) as Hs. rewrite Ek, Ev in Hs.
    apply Hs; [|assumption]. now rewrite <- lookup_env_nonempty. }
  split; [|split].
  - apply loadEnv_line_passes. split; assumption.
  - now rewrite lookup_env_nonempty.
  - intros rest o st2 Hrest. apply fetchEnv_set.
    rewrite lookup_env_nonempty by assumption.
    eapply loadEnv_scan_keeps; eassumption.
Qed.

End EmptyValue.

(** * Building the template namespace *)

Lemma walkDir_Dir (path name : string) (readdir : option string) (entries : list Node) :
  walkDir path (Dir name readdir entries) =
  {| v_path := path; v_isDir := true; v_err := None; v_file := Err "is a directory" |}
  :: match readdir with
     | Some e => [{| v_path := path; v_isDir := true; v_err := Some e;
                     v_file := Err "is a directory" |}]
     | None => []
     end
  ++ flat_map (fun d => walkDir (path_Join path (node_name d)) d) entries.
Proof. reflexivity. Qed.

(** The walk calls the function on every file of the tree. *)
Lemma walkDir_meets_every_file (root : string) (n : Node) (path : string)
    (content : result string) :
  file_at root n path content -> In (file_visit path content) (walkDir root n).
Proof.
  induction 1 as [path name content | path name readdir entries d fpath content Hd _ IH].
  - left. reflexivity.
  - rewrite walkDir_Dir. right. apply in_or_app. right.
    apply in_flat_map. exists d. split; assumption.
Qed.

Section TemplateFacts.
Context `{TemplateEngine}.

Lemma for_each_cons {A} (f : A -> M unit) (a : A) (l : list A) (st : State) :
  for_each f (a :: l) st = (f a;; for_each f l) st.
Proof. reflexivity. Qed.

Lemma visit_error (v : Visit) (e : string) (st : State) :
  v_err v = Some e -> loadTemplates_visit v st = (Exit 1, add_events st [Log e]).
Proof. intros He. unfold loadTemplates_visit. rewrite He. reflexivity. Qed.

Lemma visit_dir (v : Visit) (st : State) :
  v_err v = None -> v_isDir v = true -> loadTemplates_visit v st = (Ret tt, st).
Proof. intros He Hd. unfold loadTemplates_visit. rewrite He, Hd. reflexivity. Qed.

Lemma visit_unreadable (v : Visit) (e : string) (st : State) :
  v_err v = None -> v_isDir v = false -> v_file v = Err e ->
  loadTemplates_visit v st =
  (Exit 1, add_events st [Log ("Template " +:+ template_name (v_path v)); Log e]).
Proof.
  intros He Hd Hf. unfold loadTemplates_visit. rewrite He, Hd, Hf.
  cbn [negb]. rewrite bind_eq. cbn [log_Print emit].
  now rewrite log_Fatal_eq, add_events_app.
Qed.

Lemma visit_parsed (v : Visit) (body : string) (tree : Tree) (st : State) :
  v_err v = None -> v_isDir v = false -> v_file v = Ok body -> Parse body = Ok tree ->
  loadTemplates_visit v st =
  (Ret tt,
   with_rootTemplate (add_events st [Log ("Template " +:+ template_name (v_path v))])
     (<[template_name (v_path v) := Some tree]> (rootTemplate st))).
Proof.
  intros He Hd Hf Hp. unfold loadTemplates_visit. rewrite He, Hd, Hf.
  unfold Template_New, Template_Parse. rewrite Hp.
  unfold mbind, M_bind, mret, M_ret. cbn.
  unfold with_rootTemplate. cbn. now rewrite insert_insert_eq.
Qed.

(** A body that does not parse: the error of [Parse] is dropped, the walk
    goes on, and the name stays bound to a template without a tree. *)
Lemma visit_unparsed (v : Visit) (body e : string) (st : State) :
  v_err v = None -> v_isDir v = false -> v_file v = Ok body -> Parse body = Err e ->
  loadTemplates_visit v st =
  (Ret tt,
   with_rootTemplate (add_events st [Log ("Template " +:+ template_name (v_path v))])
     (<[template_name (v_path v) := None]> (rootTemplate st))).
Proof.
  intros He Hd Hf Hp. unfold loadTemplates_visit. rewrite He, Hd, Hf.
  unfold Template_New, Template_Parse. rewrite Hp. reflexivity.
Qed.


Lemma render_incomplete (name : string) (data : Data) (st : State) :
  rootTemplate st !! name = Some None ->
  render name data st =
  (Exit 1, add_events st [Log ("Rendering template " +:+ name); Log (incomplete_diag name)]).
Proof.
  intros Hl. unfold render, ExecuteTemplate.
  unfold mbind, M_bind, mret, M_ret. cbn.
  rewrite Hl. cbn. now rewrite log_Fatal_eq, add_events_app.
Qed.



End TemplateFacts.

Section TemplateClaims.
Context `{TemplateEngine} `{RowCodec}.
Variable host : Host.


End TemplateClaims.

(** * What a computation adds to the trace *)

Section Frames.
Context `{TemplateEngine}.

Lemma grows_refl (P : event -> Prop) (st : State) : grows P st st.
Proof. repeat split. exists []. now rewrite app_nil_r. Qed.

Lemma grows_trans (P : event -> Prop) (st1 st2 st3 : State) :
  grows P st1 st2 -> grows P st2 st3 -> grows P st1 st3.
Proof.
  intros (Hc1 & Hd1 & e1 & Ht1 & Hp1) (Hc2 & Hd2 & e2 & Ht2 & Hp2).
  repeat split; try congruence.
  exists (e1 ++ e2). split; [rewrite Ht2, Ht1; now rewrite app_assoc|].
  apply Forall_app; split; assumption.
Qed.

Lemma grows_add_events (P : event -> Prop) (st : State) (evs : list event) :
  Forall P evs -> grows P st (add_events st evs).
Proof. intros Hp. repeat split. now exists evs. Qed.

Lemma frames_ret {A} (P : event -> Prop) (a : A) : frames P (mret a : M A).
Proof. intros st o st' Hr. inversion Hr; subst. apply grows_refl. Qed.

Lemma frames_bind {A B} (P : event -> Prop) (m : M A) (f : A -> M B) :
  frames P m -> (forall a, frames P (f a)) -> frames P (m ≫= f).
Proof.
  intros Hm Hf st o st' Hr. rewrite bind_eq in Hr.
  destruct (m st) as [[a|c|e] st1] eqn:Em.
  - eapply grows_trans; [eapply Hm; exact Em | eapply Hf; exact Hr].
  - inversion Hr; subst. eapply Hm; exact Em.
  - inversion Hr; subst. eapply Hm; exact Em.
Qed.

Lemma frames_emit (P : event -> Prop) (e : event) : P e -> frames P (emit e).
Proof.
  intros Hp st o st' Hr. inversion Hr; subst.
  apply grows_add_events. now constructor.
Qed.

Lemma frames_os_Exit {A} (P : event -> Prop) (c : Z) : frames P (os_Exit c : M A).
Proof. intros st o st' Hr. inversion Hr; subst. apply grows_refl. Qed.

Lemma frames_panic {A} (P : event -> Prop) (e : string) : frames P (panic e : M A).
Proof. intros st o st' Hr. inversion Hr; subst. apply grows_refl. Qed.

Lemma frames_log_Print (P : event -> Prop) (msg : string) :
  P (Log msg) -> frames P (log_Print msg).
Proof. apply frames_emit. Qed.

Lemma frames_log_Fatal {A} (P : event -> Prop) (msg : string) :
  P (Log msg) -> frames P (log_Fatal msg : M A).
Proof.
  intros Hp. unfold log_Fatal. apply frames_bind; [now apply frames_emit|].
  intros _. apply frames_os_Exit.
Qed.

Lemma frames_os_LookupEnv (P : event -> Prop) (key : string) : frames P (os_LookupEnv key).
Proof. intros st o st' Hr. inversion Hr; subst. apply grows_refl. Qed.

Lemma frames_os_Setenv (P : event -> Prop) (k v : string) : frames P (os_Setenv k v).
Proof.
  intros st o st' Hr. unfold os_Setenv in Hr.
  destruct (setenv_accepts k v); inversion Hr; subst.
  - repeat split. exists []. cbn. now rewrite app_nil_r.
  - apply grows_refl.
Qed.

Lemma frames_get_rootTemplate (P : event -> Prop) : frames P get_rootTemplate.
Proof. intros st o st' Hr. inversion Hr; subst. apply grows_refl. Qed.

Lemma frames_set_rootTemplate (P : event -> Prop) reg : frames P (set_rootTemplate reg).
Proof.
  intros st o st' Hr. inversion Hr; subst.
  repeat split. exists []. cbn. now rewrite app_nil_r.
Qed.

Lemma frames_for_each {A} (P : event -> Prop) (f : A -> M unit) (l : list A) :
  (forall a, frames P (f a)) -> frames P (for_each f l).
Proof.
  intros Hf. induction l as [|a l IH]; cbn [for_each].
  - apply frames_ret.
  - apply frames_bind; [apply Hf | intros _; exact IH].
Qed.

Lemma frames_emits {A} (P : event -> Prop) (m : M A) : frames P m -> emits P m.
Proof. intros Hf st o st' Hr. destruct (Hf _ _ _ Hr) as (_ & _ & Hev). exact Hev. Qed.

Lemma emits_bind {A B} (P : event -> Prop) (m : M A) (f : A -> M B) :
  emits P m -> (forall a, emits P (f a)) -> emits P (m ≫= f).
Proof.
  intros Hm Hf st o st' Hr. rewrite bind_eq in Hr.
  destruct (m st) as [[a|c|e] st1] eqn:Em.
  - destruct (Hm _ _ _ Em) as (e1 & Ht1 & Hp1).
    destruct (Hf a _ _ _ Hr) as (e2 & Ht2 & Hp2).
    exists (e1 ++ e2). split; [rewrite Ht2, Ht1; now rewrite app_assoc|].
    apply Forall_app; split; assumption.
  - inversion Hr; subst. eapply Hm; exact Em.
  - inversion Hr; subst. eapply Hm; exact Em.
Qed.

Lemma emits_new_conn (P : event -> Prop) (url : string) :
  (forall c, P (Connect url c)) -> emits P (new_conn url).
Proof.
  intros Hp st o st' Hr. inversion Hr; subst. cbn.
  eexists. split; [reflexivity|]. repeat constructor. apply Hp.
Qed.

Lemma emits_defer_Close (P : event -> Prop) (db : nat) : emits P (defer_Close db).
Proof.
  intros st o st' Hr. inversion Hr; subst. cbn. exists []. now rewrite app_nil_r.
Qed.

End Frames.

Ltac frame_step :=
  first [ apply frames_bind; [|intros ?]
        | apply frames_ret | apply frames_os_Exit | apply frames_panic
        | apply frames_os_LookupEnv | apply frames_os_Setenv
        | apply frames_get_rootTemplate | apply frames_set_rootTemplate
        | apply frames_log_Print | apply frames_log_Fatal | apply frames_emit ].

Section ProgramFrames.
Context `{TemplateEngine} `{RowCodec}.
Variable host : Host.
Variable P : event -> Prop.
Hypothesis P_log : forall msg, P (Log msg).

Lemma frames_loadEnv_line (tok : ScanToken) : frames P (loadEnv_line tok).
Proof.
  unfold loadEnv_line.
  destruct (negb _); [now apply frames_log_Fatal|].
  repeat frame_step; auto.
  - destruct a; repeat frame_step; auto.
  - destruct (ScanErr tok); repeat frame_step; auto.
Qed.

Lemma frames_loadEnv : frames P (loadEnv host).
Proof.
  unfold loadEnv. destruct (dotenv host) as [[toks fin]|e]; [|now apply frames_log_Fatal].
  cbn [tokens]. induction toks as [|tok toks IH]; cbn [loadEnv_scan].
  - apply frames_ret.
  - apply frames_bind; [apply frames_loadEnv_line | intros _; exact IH].
Qed.

Lemma frames_loadTemplates_visit (v : Visit) : frames P (loadTemplates_visit v).
Proof.
  unfold loadTemplates_visit.
  destruct (v_err v); [now apply frames_log_Fatal|].
  destruct (negb _); [|apply frames_ret].
  frame_step; [now apply frames_log_Print|].
  destruct (v_file v); [|now apply frames_log_Fatal].
  unfold Template_New, Template_Parse.
  destruct (Parse a0); repeat frame_step.
Qed.

Lemma frames_loadTemplates : frames P (loadTemplates host).
Proof.
  unfold loadTemplates. repeat frame_step; auto.
  apply frames_for_each. apply frames_loadTemplates_visit.
Qed.

Lemma frames_fetchEnvDef (name d : string) : frames P (fetchEnvDef name d).
Proof. unfold fetchEnvDef. repeat frame_step. destruct a; frame_step. Qed.

Lemma frames_render (name : string) (data : Data) :
  (forall body, P (WriteBody body)) -> frames P (render name data).
Proof.
  intros P_body. unfold render, ExecuteTemplate. repeat frame_step; auto.
  - destruct (a0 !! name) as [[tree|]|]; repeat frame_step.
    destruct (Execute a0 tree data); repeat frame_step. apply P_body.
  - destruct a0; repeat frame_step; auto.
Qed.

Lemma frames_http_Handle pattern h mux : frames P (http_Handle pattern h mux).
Proof.
  unfold http_Handle. destruct (String.eqb _ _); [apply frames_panic|].
  destruct (registered mux pattern); frame_step.
Qed.

Hypothesis P_connect : forall url c, P (Connect url c).
Hypothesis P_stdout : forall msg, P (Stdout msg).

Lemma emits_connectDB : emits P (connectDB host).
Proof.
  unfold connectDB, os_Getenv.
  apply emits_bind.
  - apply frames_emits. repeat frame_step.
  - intros url. destruct (pgx_Connect host url).
    + apply emits_new_conn. intros c. apply P_connect.
    + apply frames_emits. now apply frames_log_Fatal.
Qed.

(** Package initialisation binds no listener (nor does anything but log and
    connect). *)
Lemma emits_init : emits P (init host).
Proof.
  unfold init.
  apply emits_bind; [apply frames_emits, frames_loadEnv | intros _].
  apply emits_bind; [apply frames_emits, frames_loadTemplates | intros _].
  apply emits_bind; [apply emits_connectDB | intros _].
  apply frames_emits, frames_ret.
Qed.

Lemma emits_fetchEnv (name : string) : emits P (fetchEnv name).
Proof.
  apply frames_emits. unfold fetchEnv. repeat frame_step.
  destruct a; repeat frame_step. apply P_stdout.
Qed.

Lemma emits_main_setup : emits P (main_setup host).
Proof.
  unfold main_setup.
  apply emits_bind; [apply emits_fetchEnv | intros port].
  apply emits_bind; [apply frames_emits; now apply frames_log_Print | intros _].
  apply emits_bind; [apply emits_connectDB | intros db].
  apply emits_bind; [apply emits_defer_Close | intros _].
  apply emits_bind; [apply frames_emits, frames_fetchEnvDef | intros adminPath].
  apply emits_bind; [apply frames_emits; now apply frames_log_Print | intros _].
  apply emits_bind; [apply frames_emits, frames_http_Handle | intros mux].
  apply emits_bind; [apply frames_emits, frames_http_Handle | intros mux'].
  apply frames_emits, frames_ret.
Qed.

End ProgramFrames.

(** * The primary handler *)

Section HandlerClaims.
Context `{TemplateEngine} `{RowCodec}.
Variable host : Host.

Lemma on_conn_Log db msg : on_conn db (Log msg).
Proof. split; [reflexivity | intros c q Hq; discriminate]. Qed.
Lemma on_conn_WriteBody db body : on_conn db (WriteBody body).
Proof. split; [reflexivity | intros c q Hq; discriminate]. Qed.
Lemma on_conn_Query db q : on_conn db (Query db q).
Proof. split; [reflexivity | intros c q' Hq; congruence]. Qed.

Lemma render_makes_no_query (name : string) (data : Data) (st st' : State) (o : outcome unit) :
  render name data st = (o, st') ->
  exists evs, trace st' = trace st ++ evs /\ Forall not_a_query evs.
Proof.
  intros Hr.
  assert (frames not_a_query (render name data)) as Hf
    by (apply frames_render; intros; reflexivity).
  destruct (Hf _ _ _ Hr) as (_ & _ & evs & Ht & Hq). eauto.
Qed.

Lemma Handler_query_failed (db : nat) (req : Request) (st : State) (e : string) :
  QueryRow_Scan (pgx_Query host db users_query) = Err e ->
  Handler_ServeHTTP host db req st =
  (Exit 1, add_events st [Query db users_query; Log ("Query failed: " +:+ e)]).
Proof.
  intros Hq. unfold Handler_ServeHTTP. rewrite Hq, bind_eq. cbn [emit].
  now rewrite log_Fatal_eq, add_events_app.
Qed.

Lemma Handler_query_bound (db : nat) (req : Request) (st : State) (id : Z) (name : string) :
  QueryRow_Scan (pgx_Query host db users_query) = Ok (id, name) ->
  Handler_ServeHTTP host db req st =
  render "hello" [("Name", name)] (add_events st [Query db users_query]).
Proof. intros Hq. unfold Handler_ServeHTTP. rewrite Hq, bind_eq. reflexivity. Qed.

(** C1 (amended): for every request, whatever its path and method, the
    primary handler sends exactly one query, whose text is
    [select * from users]; when its first row binds to an integer id and a
    string name the handler then renders the template [hello] with the single
    field [Name], and otherwise it ends the process with [Query failed]. *)
Theorem Handler_queries_once_then_renders_hello (db : nat) (req : Request) (st : State) :
  users_query = "select * from users" /\
  exists o st' rest,
    Handler_ServeHTTP host db req st = (o, st') /\
    trace st' = trace st ++ Query db users_query :: rest /\
    Forall not_a_query rest /\
    match QueryRow_Scan (pgx_Query host db users_query) with
    | Ok (id, name) =>
        (o, st') = render "hello" [("Name", name)] (add_events st [Query db users_query])
    | Err e =>
        o = Exit 1 /\ rest = [Log ("Query failed: " +:+ e)]
    end.
Proof.
  split; [reflexivity|].
  destruct (QueryRow_Scan (pgx_Query host db users_query)) as [[id name]|e] eqn:Hq.
  - destruct (render "hello" [("Name", name)] (add_events st [Query db users_query]))
      as [o st'] eqn:Hr.
    destruct (render_makes_no_query _ _ _ _ _ Hr) as (rest & Ht & Hn).
    exists o, st', rest. rewrite (Handler_query_bound _ _ _ _ _ Hq).
    split; [exact Hr|]. split; [|split; [exact Hn | reflexivity]].
    rewrite Ht. cbn. now rewrite <- app_assoc.
  - eexists _, _, _. rewrite (Handler_query_failed _ _ _ _ Hq).
    split; [reflexivity|]. split; [reflexivity|].
    split; [repeat constructor | split; reflexivity].
Qed.

(** C2 (amended): the single-row fetch fails, and the failure ends the
    process, when the query fails, returns no row, or the first row has not
    exactly two cells or a cell of it does not bind; when the query returns
    more than one row the first row is bound and the others are dropped, so
    the request is served as with that row alone. *)
Theorem QueryRow_binds_the_first_row (db : nat) (req : Request) (st : State) :
  (forall e, pgx_Query host db users_query = Err e ->
     Handler_ServeHTTP host db req st =
     (Exit 1, add_events st [Query db users_query; Log ("Query failed: " +:+ e)])) /\
  (pgx_Query host db users_query = Ok [] ->
     Handler_ServeHTTP host db req st =
     (Exit 1, add_events st [Query db users_query;
                             Log "Query failed: no rows in result set"])) /\
  (forall row more e,
     pgx_Query host db users_query = Ok (row :: more) ->
     QueryRow_Scan (Ok [row]) = Err e ->
     Handler_ServeHTTP host db req st =
     (Exit 1, add_events st [Query db users_query; Log ("Query failed: " +:+ e)])) /\
  (forall row more id name,
     pgx_Query host db users_query = Ok (row :: more) ->
     QueryRow_Scan (Ok [row]) = Ok (id, name) ->
     Handler_ServeHTTP host db req st =
     render "hello" [("Name", name)] (add_events st [Query db users_query])) /\
  (forall c1 c2 more,
     (forall e, ScanInt c1 = Err e -> QueryRow_Scan (Ok ([c1; c2] :: more)) = Err e) /\
     (forall id e, ScanInt c1 = Ok id -> ScanString c2 = Err e ->
        QueryRow_Scan (Ok ([c1; c2] :: more)) = Err e) /\
     (forall id name, ScanInt c1 = Ok id -> ScanString c2 = Ok name ->
        QueryRow_Scan (Ok ([c1; c2] :: more)) = Ok (id, name))) /\
  (forall row more, length row <> 2 ->
     exists e, QueryRow_Scan (Ok (row :: more)) = Err e).
Proof.
  split; [|split; [|split; [|split; [|split]]]].
  - intros e He. apply Handler_query_failed. now rewrite He.
  - intros He. apply (Handler_query_failed _ _ _ "no rows in result set").
    now rewrite He.
  - intros row more e He Hs. apply Handler_query_failed. now rewrite He.
  - intros row more id name He Hs. apply (Handler_query_bound _ _ _ id). now rewrite He.
  - intros c1 c2 more. cbn [QueryRow_Scan]. repeat split.
    + intros e ->. reflexivity.
    + intros id e -> ->. reflexivity.
    + intros id name -> ->. reflexivity.
  - intros row more Hlen. cbn [QueryRow_Scan].
    destruct row as [|c1 [|c2 [|c3 row]]]; cbn in *; try lia; eauto.
Qed.

End HandlerClaims.

(** * A whole start *)

Section Startup.
Context `{TemplateEngine} `{RowCodec}.
Variable host : Host.

Lemma bind_Ret_inv {A B} (m : M A) (f : A -> M B) (st st' : State) (b : B) :
  (m ≫= f) st = (Ret b, st') ->
  exists a st1, m st = (Ret a, st1) /\ f a st1 = (Ret b, st').
Proof.
  rewrite bind_eq. destruct (m st) as [[a|c|e] st1]; try discriminate. eauto.
Qed.

Lemma connectDB_Ret (st st' : State) (c : nat) :
  connectDB host st = (Ret c, st') ->
  c = conns st /\ conns st' = S (conns st) /\ deferred st' = deferred st /\
  environ st' = environ st /\
  exists url, trace st' = trace st ++ [Connect url c].
Proof.
  unfold connectDB, os_Getenv. intros Hr.
  apply bind_Ret_inv in Hr as (url & st1 & Hurl & Hr).
  apply bind_Ret_inv in Hurl as (r & st2 & Hl & Hret).
  inversion Hl; subst. inversion Hret; subst. clear Hl Hret.
  destruct (pgx_Connect host _); [|discriminate].
  inversion Hr; subst. cbn. repeat split; eauto.
Qed.

Lemma fetchEnv_Ret (name v : string) (st st' : State) :
  fetchEnv name st = (Ret v, st') ->
  st' = st /\ lookup_env (environ st) name = Some v.
Proof.
  unfold fetchEnv. rewrite bind_eq. cbn.
  destruct (lookup_env (environ st) name); [|discriminate].
  intros Hr. inversion Hr; subst. auto.
Qed.

Lemma http_Handle_Ret pattern h (mux mux' : ServeMux) (st st' : State) :
  http_Handle pattern h mux st = (Ret mux', st') ->
  st' = st /\ mux' = mux ++ [(pattern, h)].
Proof.
  unfold http_Handle. destruct (String.eqb _ _); [discriminate|].
  destruct (registered mux pattern); [discriminate|].
  intros Hr. inversion Hr; subst. auto.
Qed.

(** What [main] has done when the mux is complete. *)
Lemma main_setup_Ret (st st' : State) (port : string) (mux : ServeMux) :
  main_setup host st = (Ret (port, mux), st') ->
  lookup_env (environ st) "PORT" = Some port /\
  mux = [(default "/admin/" (lookup_env (environ st) "ADMIN_PATH"), AdminHandlerRef);
         ("/", PrimaryHandler (conns st))] /\
  conns st' = S (conns st) /\
  deferred st' = conns st :: deferred st /\
  exists url adminPath,
    trace st' = trace st ++ [Log ("Running on port " +:+ port);
                             Connect url (conns st);
                             Log ("Serving admin site from " +:+ adminPath)].
Proof.
  unfold main_setup. intros Hr.
  apply bind_Ret_inv in Hr as (port' & s1 & Hport & Hr).
  apply fetchEnv_Ret in Hport as [-> Hport].
  apply bind_Ret_inv in Hr as ([] & s2 & Hlog & Hr).
  inversion Hlog; subst; clear Hlog.
  apply bind_Ret_inv in Hr as (db & s3 & Hdb & Hr).
  apply connectDB_Ret in Hdb as (-> & Hc & Hd & He & url & Ht).
  apply bind_Ret_inv in Hr as ([] & s4 & Hdefer & Hr).
  inversion Hdefer; subst; clear Hdefer.
  apply bind_Ret_inv in Hr as (adminPath & s5 & Hadmin & Hr).
  rewrite fetchEnvDef_eq in Hadmin. inversion Hadmin; subst; clear Hadmin.
  apply bind_Ret_inv in Hr as ([] & s6 & Hlog & Hr).
  inversion Hlog; subst; clear Hlog.
  apply bind_Ret_inv in Hr as (mux1 & s7 & Hh1 & Hr).
  apply http_Handle_Ret in Hh1 as [-> ->].
  apply bind_Ret_inv in Hr as (mux2 & s8 & Hh2 & Hr).
  apply http_Handle_Ret in Hh2 as [-> ->].
  inversion Hr; subst; clear Hr.
  cbn [environ conns deferred trace add_events] in *. rewrite He.
  repeat split; trivial; [congruence|].
  exists url. eexists. rewrite Ht. rewrite <- !app_assoc. reflexivity.
Qed.

(** *** The handlers a request can reach *)

Lemma registered_In (mux : ServeMux) (pattern : string) (h : HandlerRef) :
  registered mux pattern = Some h -> In h (map snd mux).
Proof.
  unfold registered. induction mux as [|[p h'] mux IH]; cbn; [discriminate|].
  destruct (String.eqb p pattern); cbn.
  - intros Hr. inversion Hr. now left.
  - intros Hr. right. now apply IH.
Qed.

Lemma longest_subtree_In (mux : ServeMux) (path : string) (e : string * HandlerRef) :
  longest_subtree mux path = Some e -> In e mux.
Proof.
  unfold longest_subtree.
  assert (forall best,
            fold_left (fun best e =>
               if ends_with_slash (fst e) && HasPrefix path (fst e) then
                 match best with
                 | Some b => if Nat.ltb (String.length (fst b)) (String.length (fst e))
                             then Some e else best
                 | None => Some e
                 end
               else best) mux best = Some e ->
            best = Some e \/ In e mux) as Hgen.
  { induction mux as [|e' mux IH]; intros best; cbn [fold_left].
    - now left.
    - intros Hf. apply IH in Hf as [Hb|Hin]; [|right; now right].
      destruct (ends_with_slash (fst e') && HasPrefix path (fst e')); [|now left].
      destruct best as [b|].
      + destruct (Nat.ltb _ _); [right; left; congruence | now left].
      + right; left; congruence. }
  intros Hf. apply Hgen in Hf as [Hd|Hin]; [discriminate | exact Hin].
Qed.

Lemma mux_match_In (mux : ServeMux) (path : string) (h : HandlerRef) :
  mux_match mux path = Serve h -> In h (map snd mux).
Proof.
  unfold mux_match. destruct (registered mux path) as [h'|] eqn:Hr.
  - intros Hs. inversion Hs; subst. eapply registered_In; eassumption.
  - destruct (longest_subtree mux path) as [e|] eqn:Hl; [|discriminate].
    intros Hs. inversion Hs; subst. apply in_map. eapply longest_subtree_In; eassumption.
Qed.

Lemma mux_Handler_In (mux : ServeMux) (r : Request) (h : HandlerRef) :
  mux_Handler mux r = Serve h -> In h (map snd mux).
Proof.
  unfold mux_Handler.
  destruct (String.eqb (Method r) "CONNECT").
  - destruct (shouldRedirect mux (URLPath r)); [discriminate | apply mux_match_In].
  - destruct (shouldRedirect mux _); [discriminate|].
    destruct (negb _); [discriminate | apply mux_match_In].
Qed.

Lemma frames_Handler_ServeHTTP (db : nat) (r : Request) :
  frames (on_conn db) (Handler_ServeHTTP host db r).
Proof.
  unfold Handler_ServeHTTP.
  apply frames_bind; [apply frames_emit, on_conn_Query | intros _].
  destruct (QueryRow_Scan _) as [[id name]|e].
  - apply frames_render; [apply on_conn_Log | apply on_conn_WriteBody].
  - apply frames_log_Fatal, on_conn_Log.
Qed.

Lemma frames_serve (db : nat) (mux : ServeMux) (r : Request) :
  (forall h, In h (map snd mux) -> h = AdminHandlerRef \/ h = PrimaryHandler db) ->
  frames (on_conn db) (serve host mux r).
Proof.
  intros Hmux. unfold serve.
  destruct (String.eqb (RequestURI r) "*").
  { apply frames_emit. split; [reflexivity | intros c q Hq; discriminate]. }
  destruct (mux_Handler mux r) as [h|loc|] eqn:Hh.
  - destruct (Hmux h (mux_Handler_In _ _ _ Hh)) as [->| ->].
    + apply frames_emit, on_conn_WriteBody.
    + apply frames_Handler_ServeHTTP.
  - apply frames_bind; [|intros _]; apply frames_emit;
      (split; [reflexivity | intros c q Hq; discriminate]).
  - apply frames_bind; [|intros _]; apply frames_emit;
      (split; [reflexivity | intros c q Hq; discriminate]).
Qed.

Lemma on_conn_no_Connect (db : nat) (evs : list event) :
  Forall (on_conn db) evs -> List.filter is_Connect evs = [].
Proof.
  induction 1 as [|e evs [Hc _] _ IH]; cbn; [reflexivity|]. now rewrite Hc.
Qed.

Lemma on_conn_query_on (db : nat) (evs : list event) :
  Forall (on_conn db) evs -> Forall (query_on db) evs.
Proof. induction 1 as [|e evs [_ Hq] _ IH]; constructor; assumption. Qed.

Lemma not_a_listen_absent (evs : list event) (addr : string) :
  Forall not_a_listen evs -> ~ In (Listen addr) evs.
Proof.
  intros Hall Hin. rewrite List.Forall_forall in Hall.
  specialize (Hall _ Hin). discriminate.
Qed.

(** Until [main] calls [ListenAndServe] no listener is bound. *)
Lemma not_started_before_listening {A} (m : M A) (st st' : State) (o : outcome A) :
  emits not_a_listen m -> ~ started st -> m st = (o, st') -> ~ started st'.
Proof.
  intros Hm Hst Hr [addr Hin].
  destruct (Hm _ _ _ Hr) as (evs & Ht & Hp). rewrite Ht in Hin.
  apply in_app_or in Hin as [Hin|Hin].
  - apply Hst. now exists addr.
  - now apply (not_a_listen_absent evs addr).
Qed.

(** C4: what the code does instead.  A process that has started (its listener
    is bound), however it goes on, has opened two connections: the one
    [init] makes and drops, and the one [main] makes, which is the connection
    of every query and the only one whose close is deferred. *)
Theorem started_process_has_opened_two_connections
    (reqs : list Request) (env : gmap string string) (o : outcome unit) (st' : State) :
  process host reqs (initial env) = (o, st') ->
  started st' ->
  exists url0 url1,
    List.filter is_Connect (trace st') = [Connect url0 0; Connect url1 1] /\
    Forall (query_on 1) (trace st') /\
    deferred st' = [1].
Proof.
  unfold process. intros Hr Hstarted.
  assert (~ started (initial env)) as Hs0 by (intros [addr []]).
  rewrite bind_eq in Hr.
  destruct (init host (initial env)) as [[[]|c|e] s3] eqn:Hinit.
  2,3: exfalso; inversion Hr; subst;
       refine (not_started_before_listening _ _ _ _ _ Hs0 Hinit Hstarted);
       apply emits_init; intros; reflexivity.
  assert (~ started s3) as Hs3.
  { refine (not_started_before_listening _ _ _ _ _ Hs0 Hinit).
    apply emits_init; intros; reflexivity. }
  unfold init in Hinit.
  apply bind_Ret_inv in Hinit as ([] & s1 & Henv & Hinit).
  apply bind_Ret_inv in Hinit as ([] & s2 & Htmpl & Hinit).
  apply bind_Ret_inv in Hinit as (c0 & s3' & Hdb & Hret).
  inversion Hret; subst; clear Hret.
  apply (frames_loadEnv host (on_conn 1) (on_conn_Log 1)) in Henv
    as (Hc1 & Hd1 & e1 & Ht1 & Hp1).
  apply (frames_loadTemplates host (on_conn 1) (on_conn_Log 1)) in Htmpl
    as (Hc2 & Hd2 & e2 & Ht2 & Hp2).
  apply connectDB_Ret in Hdb as (-> & Hc3 & Hd3 & _ & url0 & Ht3).
  unfold main in Hr. rewrite bind_eq in Hr.
  destruct (main_setup host s3) as [[[port mux]|c|e] s4] eqn:Hsetup.
  2,3: exfalso; inversion Hr; subst;
       refine (not_started_before_listening _ _ _ _ _ Hs3 Hsetup Hstarted);
       apply emits_main_setup; intros; reflexivity.
  assert (~ started s4) as Hs4.
  { refine (not_started_before_listening _ _ _ _ _ Hs3 Hsetup).
    apply emits_main_setup; intros; reflexivity. }
  apply main_setup_Ret in Hsetup as (_ & -> & Hc4 & Hd4 & url1 & adminPath & Ht4).
  assert (conns s2 = 0) as Hz by (rewrite Hc2, Hc1; reflexivity).
  rewrite Hz in *.
  assert (conns s3 = 1) as Hone by congruence.
  rewrite Hone in *.
  rewrite bind_eq in Hr. unfold http_ListenAndServe in Hr.
  destruct (http_Listen host _).
  2:{ exfalso. cbn in Hr. rewrite log_Fatal_eq in Hr. inversion Hr; subst.
      destruct Hstarted as [addr Hin]. cbn in Hin.
      apply in_app_or in Hin as [Hin|[Hin|[]]]; [|discriminate].
      apply Hs4. now exists addr. }
  unfold mbind, M_bind in Hr. cbn [emit] in Hr.
  match type of Hr with
  | context [for_each ?f ?l ?s] => destruct (for_each f l s) as [o5 s5] eqn:Hreqs
  end.
  apply (frames_for_each (on_conn 1) (serve host _) reqs) in Hreqs
    as (_ & Hd5 & e5 & Ht5 & Hp5).
  2:{ intros r. apply frames_serve. intros h [<-|[<-|[]]]; auto. }
  cbn [add_events trace deferred] in Ht5, Hd5.
  assert (st' = s5) as ->.
  { destruct o5 as [[]|c|e]; cbn in Hr; inversion Hr; reflexivity. }
  exists url0, url1.
  rewrite Ht5, Ht4, Ht3, Ht2, Ht1. cbn [initial trace app].
  split; [|split].
  - rewrite !List.filter_app.
    rewrite (on_conn_no_Connect _ _ Hp1), (on_conn_no_Connect _ _ Hp2),
      (on_conn_no_Connect _ _ Hp5). reflexivity.
  - repeat (apply Forall_app; split); try (now apply on_conn_query_on).
    + repeat constructor. intros c q Hq. discriminate.
    + repeat constructor; intros c q Hq; discriminate.
    + repeat constructor; intros c q Hq; discriminate.
  - rewrite Hd5, Hd4, Hd3, Hd2, Hd1. reflexivity.
Qed.

End Startup.

(** * Routing *)


Lemma join_rooted_rooted (elems : list string) :
  exists s, join_rooted elems = String SLASH s.
Proof. destruct elems as [|e es]; cbn; eauto. Qed.

Lemma cleanPath_rooted (p : string) : exists s, cleanPath p = String SLASH s.
Proof.
  unfold cleanPath. destruct (String.eqb p EmptyString); [now exists EmptyString|].
  cbv zeta. unfold path_Clean.
  destruct (join_rooted_rooted
              (clean_elements (Split (if HasPrefix p "/" then p else "/" +:+ p) SLASH)))
    as [s ->].
  destruct (_ && _); [|eauto]. rewrite append_cons. eauto.
Qed.




Lemma HasPrefix_refl (s : string) : HasPrefix s s = true.
Proof. rewrite <- (append_empty_r s) at 1. apply HasPrefix_app. Qed.







(** A request other than CONNECT whose path is not in canonical form is not
    dispatched: the mux answers with a redirect. *)
Lemma unclean_path_is_redirected (mux : ServeMux) (r : Request) :
  Method r <> "CONNECT" ->
  cleanPath (URLPath r) <> URLPath r ->
  exists location, mux_Handler mux r = RedirectTo location.
Proof.
  intros Hm Hne. unfold mux_Handler.
  destruct (String.eqb_spec (Method r) "CONNECT") as [E|_]; [contradiction|].
  destruct (shouldRedirect mux _); [eauto|].
  destruct (String.eqb_spec (cleanPath (URLPath r)) (URLPath r)) as [E|_];
    [contradiction | cbn; eauto].
Qed.

Section Routing.
Context `{TemplateEngine} `{RowCodec}.
Variable host : Host.



Lemma serve_handler (mux : ServeMux) (r : Request) (s : State) :
  RequestURI r <> "*" ->
  serve host mux r s =
  match mux_Handler mux r with
  | Serve (PrimaryHandler db) => Handler_ServeHTTP host db r s
  | Serve AdminHandlerRef => AdminHandler_ServeHTTP r s
  | RedirectTo location => (emit (Redirected location);; emit (WriteHeader 301)) s
  | NotFound => (emit (WriteHeader 404);;
                 emit (WriteBody ("404 page not found" +:+ String LF EmptyString))) s
  end.
Proof.
  intros Hstar. unfold serve.
  destruct (String.eqb_spec (RequestURI r) "*") as [E|_]; [contradiction|].
  destruct (mux_Handler mux r) as [[db|]|location|]; reflexivity.
Qed.


End Routing.

(** * Further properties of the program *)

Lemma Split_nonempty (s : string) (c : ascii) : Split s c <> [].
Proof.
  pose proof (Split_length s c) as Hl. destruct (Split s c); [discriminate | discriminate].
Qed.

Lemma Split_one_inv (s v : string) (c : ascii) : Split s c = [v] -> s = v.
Proof.
  revert v. induction s as [|a s IH]; intros v Hs; [now inversion Hs|].
  cbn [Split] in Hs. destruct (Ascii.eqb a c).
  - inversion Hs as [[Hk Hv]]. now destruct (Split_nonempty s c).
  - destruct (Split s c) as [|p ps] eqn:E; [now destruct (Split_nonempty s c)|].
    inversion Hs; subst. f_equal. now apply IH.
Qed.

(** A string that splits in two is the two parts around the separator. *)
Lemma Split_two_inv (s k v : string) (c : ascii) :
  Split s c = [k; v] -> s = k +:+ String c v.
Proof.
  revert k. induction s as [|a s IH]; intros k Hs; [discriminate|].
  cbn [Split] in Hs. destruct (Ascii.eqb_spec a c) as [->|Hne].
  - inversion Hs as [[Hk Hv]]. apply Split_one_inv in Hv as ->. reflexivity.
  - destruct (Split s c) as [|p ps] eqn:E; [discriminate|].
    inversion Hs; subst. rewrite append_cons. f_equal. now apply IH.
Qed.

Section MoreEnv.
Context `{TemplateEngine} `{RowCodec}.

(** X3: the scan loop wants exactly one '=' in a line.  A line with none or
    with more than one (a value that holds '=' is enough) is fatal with the
    malformed-line diagnostic; a line with exactly one is its key, the '='
    and its value, and is injected before the scanner's error is looked at. *)
Theorem loadEnv_line_wants_exactly_one_equals (tok : ScanToken) (st : State) :
  (count_byte EQUALS (Text tok) <> 1 ->
   loadEnv_line tok st = (Exit 1, add_events st [Log (malformed_diag (Text tok))])) /\
  (count_byte EQUALS (Text tok) = 1 ->
   Text tok = entry_key tok +:+ "=" +:+ entry_value tok /\
   loadEnv_line tok st =
   match ScanErr tok with
   | None => (Ret tt, inject_entry st tok)
   | Some e => (Exit 1, add_events (inject_entry st tok) [Log e])
   end).
Proof.
  split; intros Hc.
  - apply loadEnv_line_malformed. now rewrite Split_two_iff.
  - apply Split_two_iff in Hc. split; [|now apply loadEnv_line_wellformed].
    unfold entry_key, entry_value.
    destruct (Split (Text tok) EQUALS) as [|k [|v [|x xs]]] eqn:E; try discriminate.
    cbn [nth]. now apply Split_two_inv.
Qed.

Lemma loadEnv_line_other (tok : ScanToken) (st st' : State) (o : outcome unit) (k : string) :
  loadEnv_line tok st = (o, st') ->
  entry_key tok <> k ->
  environ st' !! k = environ st !! k.
Proof.
  intros Hr Hne.
  destruct (Nat.eq_dec (length (Split (Text tok) EQUALS)) 2) as [E|E].
  - rewrite (loadEnv_line_wellformed _ _ E) in Hr.
    destruct (ScanErr tok); inversion Hr; subst; cbn; now apply inject_entry_other.
  - rewrite (loadEnv_line_malformed _ _ E) in Hr. inversion Hr; subst. reflexivity.
Qed.

Lemma loadEnv_scan_other (toks : list ScanToken) (st st' : State) (o : outcome unit) (k : string) :
  loadEnv_scan toks st = (o, st') ->
  Forall (fun t => entry_key t <> k) toks ->
  environ st' !! k = environ st !! k.
Proof.
  intros Hr Hall. revert st Hr.
  induction Hall as [|tok toks Hne _ IH]; intros st Hr.
  - inversion Hr; subst. reflexivity.
  - cbn [loadEnv_scan] in Hr. rewrite bind_eq in Hr.
    destruct (loadEnv_line tok st) as [[[]| |] st1] eqn:Hl.
    + rewrite (IH _ Hr). eapply loadEnv_line_other; eassumption.
    + inversion Hr; subst. eapply loadEnv_line_other; eassumption.
    + inversion Hr; subst. eapply loadEnv_line_other; eassumption.
Qed.

Variable host : Host.

(** X2: loadEnv changes only variables that are unset and named in the file: a
    variable that is set keeps its value, and a variable no line names is as
    it was, however loading ends. *)
Theorem loadEnv_changes_only_unset_named_keys
    (st st' : State) (o : outcome unit) (k : string) :
  loadEnv host st = (o, st') ->
  (forall x, environ st !! k = Some x -> environ st' !! k = Some x) /\
  ((forall file, dotenv host = Ok file -> Forall (fun t => entry_key t <> k) (tokens file)) ->
   environ st' !! k = environ st !! k).
Proof.
  intros Hr. unfold loadEnv in Hr.
  destruct (dotenv host) as [file|e] eqn:Hfile.
  - split.
    + intros x Hx. eapply loadEnv_scan_keeps; eassumption.
    + intros Hnone. eapply loadEnv_scan_other; [eassumption | now apply Hnone].
  - rewrite log_Fatal_eq in Hr. inversion Hr; subst. cbn. auto.
Qed.

(** X1: the fallback file is required: when [.env] cannot be opened the
    process exits with status 1 after logging the error, whatever the
    environment holds; no template is loaded, no connection is made. *)
Theorem missing_dotenv_is_fatal (reqs : list Request) (st : State) (e : string) :
  dotenv host = Err e ->
  process host reqs st = (Exit 1, add_events st [Log e]).
Proof.
  intros Hfile. unfold process, init, loadEnv. rewrite Hfile.
  now rewrite !bind_eq, log_Fatal_eq.
Qed.

End MoreEnv.

Section Notices.
Context `{TemplateEngine}.

Lemma inject_entry_trace (st : State) (tok : ScanToken) (e : event) :
  In e (trace st) -> In e (trace (inject_entry st tok)).
Proof.
  intros Hin. destruct (inject_entry_frame st tok) as (_ & _ & _ & evs & -> & _).
  apply in_or_app. now left.
Qed.

Lemma loadEnv_line_trace (tok : ScanToken) (st st' : State) (o : outcome unit) (e : event) :
  loadEnv_line tok st = (o, st') -> In e (trace st) -> In e (trace st').
Proof.
  intros Hr Hin.
  destruct (Nat.eq_dec (length (Split (Text tok) EQUALS)) 2) as [E|E].
  - rewrite (loadEnv_line_wellformed _ _ E) in Hr.
    destruct (ScanErr tok); inversion Hr; subst; cbn;
      [apply in_or_app; left|]; now apply inject_entry_trace.
  - rewrite (loadEnv_line_malformed _ _ E) in Hr. inversion Hr; subst. cbn.
    apply in_or_app. now left.
Qed.

Lemma loadEnv_scan_trace (toks : list ScanToken) (st st' : State) (o : outcome unit) (e : event) :
  loadEnv_scan toks st = (o, st') -> In e (trace st) -> In e (trace st').
Proof.
  revert st. induction toks as [|tok toks IH]; intros st Hr Hin.
  - inversion Hr; subst. exact Hin.
  - cbn [loadEnv_scan] in Hr. rewrite bind_eq in Hr.
    destruct (loadEnv_line tok st) as [[[]| |] st1] eqn:Hl.
    + eapply IH; [exact Hr|]. eapply loadEnv_line_trace; eassumption.
    + inversion Hr; subst. eapply loadEnv_line_trace; eassumption.
    + inversion Hr; subst. eapply loadEnv_line_trace; eassumption.
Qed.

(** What one line does to a variable: nothing, or it sets it with a notice. *)
Lemma inject_entry_announces (st : State) (tok : ScanToken) (k : string) :
  environ (inject_entry st tok) !! k = environ st !! k \/
  exists v, environ (inject_entry st tok) !! k = Some v /\
            In (Log (env_notice k v)) (trace (inject_entry st tok)).
Proof.
  unfold inject_entry.
  destruct (lookup_env (environ st) (entry_key tok)); [now left|].
  destruct (setenv_accepts (entry_key tok) (entry_value tok)); [|now left].
  destruct (decide (entry_key tok = k)) as [<-|Hne].
  - right. exists (entry_value tok). cbn. split; [apply lookup_insert_eq|].
    apply in_or_app. right. now left.
  - left. cbn. now rewrite lookup_insert_ne.
Qed.

Lemma loadEnv_line_announces (tok : ScanToken) (st st' : State) (o : outcome unit) (k : string) :
  loadEnv_line tok st = (o, st') ->
  environ st' !! k = environ st !! k \/
  exists v, environ st' !! k = Some v /\ In (Log (env_notice k v)) (trace st').
Proof.
  intros Hr.
  destruct (Nat.eq_dec (length (Split (Text tok) EQUALS)) 2) as [E|E].
  - rewrite (loadEnv_line_wellformed _ _ E) in Hr.
    destruct (inject_entry_announces st tok k) as [Hs|(v & Hv & Hin)];
      destruct (ScanErr tok); inversion Hr; subst; cbn; auto;
      right; exists v; (split; [exact Hv|]); [apply in_or_app; now left | exact Hin].
  - rewrite (loadEnv_line_malformed _ _ E) in Hr. inversion Hr; subst. now left.
Qed.

Lemma loadEnv_scan_announces
    (toks : list ScanToken) (st st' : State) (o : outcome unit) (k v : string) :
  loadEnv_scan toks st = (o, st') ->
  environ st !! k = None ->
  environ st' !! k = Some v ->
  In (Log (env_notice k v)) (trace st').
Proof.
  revert st. induction toks as [|tok toks IH]; intros st Hr Hunset Hset.
  - inversion Hr; subst. congruence.
  - cbn [loadEnv_scan] in Hr. rewrite bind_eq in Hr.
    destruct (loadEnv_line tok st) as [[[]| |] st1] eqn:Hl.
    + destruct (loadEnv_line_announces _ _ _ _ k Hl) as [Hs|(v1 & Hv1 & Hin)].
      * eapply IH; [exact Hr | congruence | exact Hset].
      * assert (v1 = v) as ->.
        { pose proof (loadEnv_scan_keeps _ _ _ _ _ _ Hr Hv1). congruence. }
        eapply loadEnv_scan_trace; eassumption.
    + inversion Hr; subst.
      destruct (loadEnv_line_announces _ _ _ _ k Hl) as [Hs|(v1 & Hv1 & Hin)]; congruence.
    + inversion Hr; subst.
      destruct (loadEnv_line_announces _ _ _ _ k Hl) as [Hs|(v1 & Hv1 & Hin)]; congruence.
Qed.

End Notices.

Section NoticesOfLoading.
Context `{TemplateEngine} `{RowCodec}.
Variable host : Host.

(** X4: every variable loading sets is announced in the log, with its value. *)
Theorem loadEnv_announces_what_it_sets
    (st st' : State) (o : outcome unit) (k v : string) :
  loadEnv host st = (o, st') ->
  environ st !! k = None ->
  environ st' !! k = Some v ->
  In (Log (env_notice k v)) (trace st').
Proof.
  unfold loadEnv. destruct (dotenv host) as [file|e].
  - apply loadEnv_scan_announces.
  - rewrite log_Fatal_eq. intros Hr Hunset Hset. inversion Hr; subst.
    cbn in Hset. congruence.
Qed.

End NoticesOfLoading.

Section Namespace.
Context `{TemplateEngine}.

Lemma visit_readable (v : Visit) (st : State) :
  visit_failure v = None -> loadTemplates_visit v st = (Ret tt, visit_state st v).
Proof.
  unfold visit_failure, visit_state. intros Hok.
  destruct (v_err v) eqn:He; [discriminate|].
  destruct (v_isDir v) eqn:Hd; [now apply visit_dir|].
  destruct (v_file v) as [body|e] eqn:Hf; [|discriminate].
  destruct (Parse body) as [tree|e] eqn:Hp.
  - now apply (visit_parsed _ body).
  - now apply (visit_unparsed _ body e).
Qed.

Lemma visit_failed (v : Visit) (e : string) (st : State) :
  visit_failure v = Some e ->
  exists st',
    loadTemplates_visit v st = (Exit 1, st') /\
    last (trace st') = Some (Log e) /\
    rootTemplate st' = rootTemplate st /\ conns st' = conns st /\
    environ st' = environ st.
Proof.
  unfold visit_failure. intros Hf.
  destruct (v_err v) as [e'|] eqn:He.
  - inversion Hf; subst. rewrite (visit_error _ _ _ He).
    eexists. split; [reflexivity|]. cbn. rewrite last_snoc. auto.
  - destruct (v_isDir v) eqn:Hd; [discriminate|].
    destruct (v_file v) as [body|e'] eqn:Hfile; [discriminate|].
    inversion Hf; subst. rewrite (visit_unreadable _ _ _ He Hd Hfile).
    eexists. split; [reflexivity|]. cbn.
    change [Log ("Template " +:+ template_name (v_path v)); Log e]
      with ([Log ("Template " +:+ template_name (v_path v))] ++ [Log e]).
    rewrite app_assoc, last_snoc. auto.
Qed.

Lemma for_each_readable (vs : list Visit) (st : State) :
  Forall (fun v => visit_failure v = None) vs ->
  for_each loadTemplates_visit vs st = (Ret tt, fold_left visit_state vs st).
Proof.
  intros Hall. revert st. induction Hall as [|v vs Hv _ IH]; intros st; [reflexivity|].
  rewrite for_each_cons, bind_eq, (visit_readable _ _ Hv). apply IH.
Qed.

Lemma for_each_app {A} (f : A -> M unit) (pre post : list A) (st : State) :
  for_each f (pre ++ post) st = (for_each f pre;; for_each f post) st.
Proof.
  revert st. induction pre as [|a pre IH]; intros st; [reflexivity|].
  cbn [app for_each]. rewrite !bind_eq.
  destruct (f a st) as [[[]| |] st1]; try reflexivity.
  rewrite IH, bind_eq. reflexivity.
Qed.

(** A list of visits goes through, or has a first visit that fails. *)
Lemma first_failure (vs : list Visit) :
  Forall (fun v => visit_failure v = None) vs \/
  exists pre v post e,
    vs = pre ++ v :: post /\
    Forall (fun v => visit_failure v = None) pre /\ visit_failure v = Some e.
Proof.
  induction vs as [|v vs IH]; [left; constructor|].
  destruct (visit_failure v) as [e|] eqn:Hv.
  - right. exists [], v, vs, e. repeat split; [constructor | exact Hv].
  - destruct IH as [Hall|(pre & w & post & e & -> & Hpre & Hw)].
    + left. now constructor.
    + right. exists (v :: pre), w, post, e. repeat split; [now constructor | exact Hw].
Qed.

Lemma visit_state_frame (st : State) (v : Visit) :
  environ (visit_state st v) = environ st /\ conns (visit_state st v) = conns st /\
  deferred (visit_state st v) = deferred st.
Proof.
  unfold visit_state. destruct (v_isDir v); [auto|]. destruct (v_file v); auto.
Qed.

Lemma visits_state_frame (vs : list Visit) (st : State) :
  environ (fold_left visit_state vs st) = environ st /\
  conns (fold_left visit_state vs st) = conns st /\
  deferred (fold_left visit_state vs st) = deferred st.
Proof.
  revert st. induction vs as [|v vs IH]; intros st; cbn [fold_left]; [auto|].
  destruct (IH (visit_state st v)) as (He & Hc & Hd).
  destruct (visit_state_frame st v) as (He' & Hc' & Hd').
  repeat split; congruence.
Qed.

(** A walk removes no name from the namespace. *)
Lemma visits_state_keeps_names (vs : list Visit) (st : State) (name : string) :
  is_Some (rootTemplate st !! name) ->
  is_Some (rootTemplate (fold_left visit_state vs st) !! name).
Proof.
  revert st. induction vs as [|v vs IH]; intros st Hs; cbn [fold_left]; [exact Hs|].
  apply IH. unfold visit_state. destruct (v_isDir v); [exact Hs|].
  destruct (v_file v) as [body|e]; [|exact Hs]. cbn [rootTemplate with_rootTemplate].
  destruct (decide (template_name (v_path v) = name)) as [E|E].
  - rewrite E, lookup_insert_eq. eauto.
  - now rewrite lookup_insert_ne.
Qed.

(** A walk without failure enters the derived name of every file it meets. *)
Lemma visits_state_enters_files (vs : list Visit) (st : State) (v : Visit) :
  Forall (fun v => visit_failure v = None) vs ->
  In v vs -> v_isDir v = false ->
  is_Some (rootTemplate (fold_left visit_state vs st) !! template_name (v_path v)).
Proof.
  intros Hall. revert st. induction Hall as [|w vs Hw _ IH]; intros st Hin Hd; [destruct Hin|].
  cbn [fold_left]. destruct Hin as [->|Hin]; [|now apply IH].
  apply visits_state_keeps_names. unfold visit_failure, visit_state in *.
  destruct (v_err v); [discriminate|]. rewrite Hd in *.
  destruct (v_file v) as [body|e]; [|discriminate].
  cbn [rootTemplate with_rootTemplate]. rewrite lookup_insert_eq. eauto.
Qed.

Lemma render_undefined (name : string) (data : Data) (st : State) :
  rootTemplate st !! name = None ->
  render name data st =
  (Exit 1, add_events st [Log ("Rendering template " +:+ name); Log (undefined_diag name)]).
Proof.
  intros Hl. unfold render, ExecuteTemplate.
  unfold mbind, M_bind, mret, M_ret. cbn.
  rewrite Hl. cbn. now rewrite log_Fatal_eq, add_events_app.
Qed.

End Namespace.

Section MoreTemplates.
Context `{TemplateEngine} `{RowCodec}.
Variable host : Host.

Lemma loadTemplates_eq (st : State) :
  loadTemplates host st =
  match for_each loadTemplates_visit (fs_WalkDir (templateFS host) ".")
          (with_rootTemplate st (template_New EmptyString)) with
  | (Ret _, st1) => (Ret tt, add_events st1 [Log (DefinedTemplates (rootTemplate st1))])
  | (Exit c, st1) => (Exit c, st1)
  | (Panic e, st1) => (Panic e, st1)
  end.
Proof.
  unfold loadTemplates. unfold mbind, M_bind. cbn [set_rootTemplate].
  destruct (for_each _ _ _) as [[[]| |] st1]; reflexivity.
Qed.

Lemma loadTemplates_readable (st : State) :
  Forall (fun v => visit_failure v = None) (fs_WalkDir (templateFS host) ".") ->
  loadTemplates host st =
  let st1 := fold_left visit_state (fs_WalkDir (templateFS host) ".")
               (with_rootTemplate st (template_New EmptyString)) in
  (Ret tt, add_events st1 [Log (DefinedTemplates (rootTemplate st1))]).
Proof. intros Hall. now rewrite loadTemplates_eq, (for_each_readable _ _ Hall). Qed.

(** A walk that returned met no failing visit. *)
Lemma loadTemplates_Ret_readable (st st' : State) :
  loadTemplates host st = (Ret tt, st') ->
  Forall (fun v => visit_failure v = None) (fs_WalkDir (templateFS host) ".").
Proof.
  intros Hr.
  destruct (first_failure (fs_WalkDir (templateFS host) "."))
    as [Hall|(pre & v & post & e & Hwalk & Hpre & Hv)]; [exact Hall|].
  rewrite loadTemplates_eq, Hwalk in Hr.
  rewrite for_each_app, bind_eq, (for_each_readable _ _ Hpre) in Hr.
  rewrite for_each_cons, bind_eq in Hr.
  destruct (visit_failed v e (fold_left visit_state pre
              (with_rootTemplate st (template_New EmptyString))) Hv)
    as (s & Hs & _).
  rewrite Hs in Hr. discriminate.
Qed.

(** X6: a walk that fails dies of its first failing visit: the process exits
    with status 1, the last log line is that visit's error, and no connection
    was made. *)
Theorem loadTemplates_dies_of_the_first_failure
    (st : State) (pre post : list Visit) (v : Visit) (e : string) :
  fs_WalkDir (templateFS host) "." = pre ++ v :: post ->
  Forall (fun v => visit_failure v = None) pre ->
  visit_failure v = Some e ->
  exists st',
    loadTemplates host st = (Exit 1, st') /\
    last (trace st') = Some (Log e) /\
    conns st' = conns st /\ environ st' = environ st.
Proof.
  intros Hwalk Hpre Hv. rewrite loadTemplates_eq, Hwalk.
  rewrite for_each_app, bind_eq, (for_each_readable _ _ Hpre).
  rewrite for_each_cons, bind_eq.
  destruct (visit_failed v e (fold_left visit_state pre
              (with_rootTemplate st (template_New EmptyString))) Hv)
    as (st' & -> & Hlast & _ & Hc & He).
  exists st'. split; [reflexivity|]. split; [exact Hlast|].
  destruct (visits_state_frame pre (with_rootTemplate st (template_New EmptyString)))
    as (He' & Hc' & _).
  split; [now rewrite Hc, Hc' | now rewrite He, He'].
Qed.

(** X5: loadTemplates returns exactly when no visit fails, that is when no
    error is handed to the walk function and every file can be opened and
    read; whether the bodies parse plays no part. *)
Theorem loadTemplates_returns_iff_tree_is_read (st : State) :
  (exists st', loadTemplates host st = (Ret tt, st')) <->
  Forall (fun v => visit_failure v = None) (fs_WalkDir (templateFS host) ".").
Proof.
  split.
  - intros [st' Hr]. exact (loadTemplates_Ret_readable _ _ Hr).
  - intros Hall. rewrite (loadTemplates_readable _ Hall). eauto.
Qed.

(** X8: after loadTemplates the namespace holds the root name (the empty
    one) and the derived name of every file of the embedded tree, whether or
    not the file's body parses: a file's name is bound to a tree or left
    without one, never undefined. *)
Theorem every_file_name_is_in_the_namespace
    (st st' : State) (root : Node) (name : string) :
  templateFS host = Ok root ->
  loadTemplates host st = (Ret tt, st') ->
  name = EmptyString \/
  (exists path content, file_at "." root path content /\ template_name path = name) ->
  is_Some (rootTemplate st' !! name).
Proof.
  intros Hfs Hr Hname. pose proof (loadTemplates_Ret_readable _ _ Hr) as Hall.
  rewrite (loadTemplates_readable _ Hall) in Hr. inversion Hr; subst. clear Hr.
  cbn [rootTemplate add_events].
  destruct Hname as [->|(path & content & Hat & <-)].
  - apply visits_state_keeps_names. cbn [rootTemplate with_rootTemplate].
    unfold template_New. rewrite lookup_singleton_eq. eauto.
  - rewrite Hfs in *. cbn [fs_WalkDir] in *.
    apply (visits_state_enters_files _ _ (file_visit path content) Hall);
      [now apply walkDir_meets_every_file | reflexivity].
Qed.

End MoreTemplates.

(** * What a computation leaves alone, and how it can end *)

Section Preserved.
Context `{TemplateEngine} `{RowCodec}.
Variable host : Host.
Context {X : Type}.
Variable proj : State -> X.
Hypothesis proj_run : forall st tr c d,
  proj {| environ := environ st; rootTemplate := rootTemplate st;
          trace := tr; conns := c; deferred := d |} = proj st.

Lemma preserves_ret {A} (a : A) : preserves proj (mret a : M A).
Proof. intros st o st' Hr. inversion Hr; subst. reflexivity. Qed.

Lemma preserves_bind {A B} (m : M A) (f : A -> M B) :
  preserves proj m -> (forall a, preserves proj (f a)) -> preserves proj (m ≫= f).
Proof.
  intros Hm Hf st o st' Hr. rewrite bind_eq in Hr.
  destruct (m st) as [[a|c|e] st1] eqn:Em.
  - rewrite (Hf a _ _ _ Hr). eapply Hm; exact Em.
  - inversion Hr; subst. eapply Hm; exact Em.
  - inversion Hr; subst. eapply Hm; exact Em.
Qed.

Lemma preserves_emit (e : event) : preserves proj (emit e).
Proof. intros st o st' Hr. inversion Hr; subst. apply proj_run. Qed.

Lemma preserves_os_Exit {A} (c : Z) : preserves proj (os_Exit c : M A).
Proof. intros st o st' Hr. inversion Hr; subst. reflexivity. Qed.

Lemma preserves_panic {A} (e : string) : preserves proj (panic e : M A).
Proof. intros st o st' Hr. inversion Hr; subst. reflexivity. Qed.

Lemma preserves_log_Fatal {A} (msg : string) : preserves proj (log_Fatal msg : M A).
Proof.
  unfold log_Fatal. apply preserves_bind; [apply preserves_emit|].
  intros _. apply preserves_os_Exit.
Qed.

Lemma preserves_os_LookupEnv (key : string) : preserves proj (os_LookupEnv key).
Proof. intros st o st' Hr. inversion Hr; subst. reflexivity. Qed.

Lemma preserves_get_rootTemplate : preserves proj get_rootTemplate.
Proof. intros st o st' Hr. inversion Hr; subst. reflexivity. Qed.

Lemma preserves_for_each {A} (f : A -> M unit) (l : list A) :
  (forall a, preserves proj (f a)) -> preserves proj (for_each f l).
Proof.
  intros Hf. induction l as [|a l IH]; cbn [for_each].
  - apply preserves_ret.
  - apply preserves_bind; [apply Hf | intros _; exact IH].
Qed.

Lemma preserves_new_conn (url : string) : preserves proj (new_conn url).
Proof. intros st o st' Hr. inversion Hr; subst. apply proj_run. Qed.

Lemma preserves_defer_Close (db : nat) : preserves proj (defer_Close db).
Proof. intros st o st' Hr. inversion Hr; subst. apply proj_run. Qed.

Ltac keep_step :=
  first [ apply preserves_log_Fatal
        | apply preserves_bind; [|intros ?]
        | apply preserves_ret | apply preserves_os_Exit | apply preserves_panic
        | apply preserves_os_LookupEnv | apply preserves_get_rootTemplate
        | apply preserves_emit
        | apply preserves_new_conn | apply preserves_defer_Close ].

Lemma preserves_connectDB : preserves proj (connectDB host).
Proof.
  unfold connectDB, os_Getenv.
  apply preserves_bind; [repeat keep_step | intros url].
  destruct (pgx_Connect host url); keep_step.
Qed.

Lemma preserves_fetchEnv (name : string) : preserves proj (fetchEnv name).
Proof. unfold fetchEnv. repeat keep_step. destruct a; repeat keep_step. Qed.

Lemma preserves_fetchEnvDef (name d : string) : preserves proj (fetchEnvDef name d).
Proof. unfold fetchEnvDef. repeat keep_step. destruct a; keep_step. Qed.

Lemma preserves_http_Handle pattern h mux : preserves proj (http_Handle pattern h mux).
Proof.
  unfold http_Handle. destruct (String.eqb _ _); [apply preserves_panic|].
  destruct (registered mux pattern); keep_step.
Qed.

Lemma preserves_render (name : string) (data : Data) : preserves proj (render name data).
Proof.
  unfold render, ExecuteTemplate, log_Print. repeat keep_step.
  - destruct (a0 !! name) as [[tree|]|]; repeat keep_step.
    destruct (Execute a0 tree data); repeat keep_step.
  - destruct a0; repeat keep_step.
Qed.

Lemma preserves_Handler_ServeHTTP (db : nat) (r : Request) :
  preserves proj (Handler_ServeHTTP host db r).
Proof.
  unfold Handler_ServeHTTP. repeat keep_step.
  destruct (QueryRow_Scan _) as [[id name]|e]; [apply preserves_render | keep_step].
Qed.

Lemma preserves_serve (mux : ServeMux) (r : Request) : preserves proj (serve host mux r).
Proof.
  unfold serve. destruct (String.eqb (RequestURI r) "*"); [apply preserves_emit|].
  destruct (mux_Handler mux r) as [[db|]|location|].
  - apply preserves_Handler_ServeHTTP.
  - apply preserves_emit.
  - repeat keep_step.
  - repeat keep_step.
Qed.

Lemma preserves_main_setup : preserves proj (main_setup host).
Proof.
  unfold main_setup, log_Print.
  apply preserves_bind; [apply preserves_fetchEnv | intros port].
  apply preserves_bind; [apply preserves_emit | intros _].
  apply preserves_bind; [apply preserves_connectDB | intros db].
  apply preserves_bind; [apply preserves_defer_Close | intros _].
  apply preserves_bind; [apply preserves_fetchEnvDef | intros adminPath].
  apply preserves_bind; [apply preserves_emit | intros _].
  apply preserves_bind; [apply preserves_http_Handle | intros mux].
  apply preserves_bind; [apply preserves_http_Handle | intros mux'].
  apply preserves_ret.
Qed.

Lemma preserves_main (reqs : list Request) : preserves proj (main host reqs).
Proof.
  unfold main, http_ListenAndServe.
  apply preserves_bind; [apply preserves_main_setup | intros [port mux]].
  apply preserves_bind.
  - destruct (http_Listen host _); [|apply preserves_ret].
    repeat keep_step. apply preserves_for_each. intros r. apply preserves_serve.
  - intros [e|]; keep_step.
Qed.

(** The template loader, for a part of the state the namespace is no part of. *)
Hypothesis proj_templates : forall st reg, proj (with_rootTemplate st reg) = proj st.

Lemma preserves_set_rootTemplate reg : preserves proj (set_rootTemplate reg).
Proof. intros st o st' Hr. inversion Hr; subst. apply proj_templates. Qed.

Lemma preserves_loadTemplates_visit (v : Visit) : preserves proj (loadTemplates_visit v).
Proof.
  unfold loadTemplates_visit, log_Print.
  destruct (v_err v); [apply preserves_log_Fatal|].
  destruct (negb _); [|apply preserves_ret].
  keep_step; [apply preserves_emit|].
  destruct (v_file v); [|apply preserves_log_Fatal].
  unfold Template_New, Template_Parse.
  destruct (Parse a0);
    repeat first [keep_step | apply preserves_set_rootTemplate].
Qed.

Lemma preserves_loadTemplates : preserves proj (loadTemplates host).
Proof.
  unfold loadTemplates, log_Print.
  repeat first [keep_step | apply preserves_set_rootTemplate].
  apply preserves_for_each. apply preserves_loadTemplates_visit.
Qed.

End Preserved.

Section Endings.
Context `{TemplateEngine} `{RowCodec}.
Variable host : Host.

Lemma exit_1_ret {A} (a : A) : fails_by_exit_1 (mret a : M A).
Proof. intros st o st' Hr. inversion Hr; subst. left. eauto. Qed.

Lemma exit_1_bind {A B} (m : M A) (f : A -> M B) :
  fails_by_exit_1 m -> (forall a, fails_by_exit_1 (f a)) -> fails_by_exit_1 (m ≫= f).
Proof.
  intros Hm Hf st o st' Hr. rewrite bind_eq in Hr.
  destruct (m st) as [[a|c|e] st1] eqn:Em.
  - eapply Hf; exact Hr.
  - inversion Hr; subst. destruct (Hm _ _ _ Em) as [[a Ha]|Hc]; [discriminate|].
    right. congruence.
  - destruct (Hm _ _ _ Em) as [[a Ha]|Hc]; discriminate.
Qed.

Lemma exit_1_emit (e : event) : fails_by_exit_1 (emit e).
Proof. intros st o st' Hr. inversion Hr; subst. left. eauto. Qed.

Lemma exit_1_log_Fatal {A} (msg : string) : fails_by_exit_1 (log_Fatal msg : M A).
Proof. intros st o st' Hr. inversion Hr; subst. now right. Qed.

Lemma exit_1_os_LookupEnv (key : string) : fails_by_exit_1 (os_LookupEnv key).
Proof. intros st o st' Hr. inversion Hr; subst. left. eauto. Qed.

Lemma exit_1_os_Setenv (k v : string) : fails_by_exit_1 (os_Setenv k v).
Proof.
  intros st o st' Hr. unfold os_Setenv in Hr.
  destruct (setenv_accepts k v); inversion Hr; subst; left; eauto.
Qed.

Lemma exit_1_get_rootTemplate : fails_by_exit_1 get_rootTemplate.
Proof. intros st o st' Hr. inversion Hr; subst. left. eauto. Qed.

Lemma exit_1_set_rootTemplate reg : fails_by_exit_1 (set_rootTemplate reg).
Proof. intros st o st' Hr. inversion Hr; subst. left. eauto. Qed.

Lemma exit_1_new_conn (url : string) : fails_by_exit_1 (new_conn url).
Proof. intros st o st' Hr. inversion Hr; subst. left. eauto. Qed.

Lemma exit_1_for_each {A} (f : A -> M unit) (l : list A) :
  (forall a, fails_by_exit_1 (f a)) -> fails_by_exit_1 (for_each f l).
Proof.
  intros Hf. induction l as [|a l IH]; cbn [for_each].
  - apply exit_1_ret.
  - apply exit_1_bind; [apply Hf | intros _; exact IH].
Qed.

Ltac end_step :=
  first [ apply exit_1_log_Fatal
        | apply exit_1_bind; [|intros ?]
        | apply exit_1_ret | apply exit_1_emit
        | apply exit_1_os_LookupEnv | apply exit_1_os_Setenv
        | apply exit_1_get_rootTemplate | apply exit_1_set_rootTemplate
        | apply exit_1_new_conn ].

Lemma exit_1_loadEnv_line (tok : ScanToken) : fails_by_exit_1 (loadEnv_line tok).
Proof.
  unfold loadEnv_line, log_Print.
  destruct (negb _); [apply exit_1_log_Fatal|].
  repeat end_step.
  - destruct a; repeat end_step.
  - destruct (ScanErr tok); end_step.
Qed.

Lemma exit_1_loadEnv : fails_by_exit_1 (loadEnv host).
Proof.
  unfold loadEnv. destruct (dotenv host) as [[toks fin]|e]; [|apply exit_1_log_Fatal].
  cbn [tokens]. induction toks as [|tok toks IH]; cbn [loadEnv_scan].
  - apply exit_1_ret.
  - apply exit_1_bind; [apply exit_1_loadEnv_line | intros _; exact IH].
Qed.

Lemma exit_1_loadTemplates_visit (v : Visit) : fails_by_exit_1 (loadTemplates_visit v).
Proof.
  unfold loadTemplates_visit, log_Print.
  destruct (v_err v); [apply exit_1_log_Fatal|].
  destruct (negb _); [|apply exit_1_ret].
  end_step; [apply exit_1_emit|].
  destruct (v_file v); [|apply exit_1_log_Fatal].
  unfold Template_New, Template_Parse.
  destruct (Parse a0); repeat end_step.
Qed.

Lemma exit_1_loadTemplates : fails_by_exit_1 (loadTemplates host).
Proof.
  unfold loadTemplates, log_Print. repeat end_step.
  apply exit_1_for_each. apply exit_1_loadTemplates_visit.
Qed.

Lemma exit_1_connectDB : fails_by_exit_1 (connectDB host).
Proof.
  unfold connectDB, os_Getenv.
  apply exit_1_bind; [repeat end_step | intros url].
  destruct (pgx_Connect host url); end_step.
Qed.

Lemma exit_1_init : fails_by_exit_1 (init host).
Proof.
  unfold init.
  apply exit_1_bind; [apply exit_1_loadEnv | intros _].
  apply exit_1_bind; [apply exit_1_loadTemplates | intros _].
  apply exit_1_bind; [apply exit_1_connectDB | intros _].
  apply exit_1_ret.
Qed.

Lemma exit_1_fetchEnv (name : string) : fails_by_exit_1 (fetchEnv name).
Proof.
  unfold fetchEnv. repeat end_step. destruct a; [end_step|].
  intros st o st' Hr. inversion Hr; subst. now right.
Qed.

Lemma exit_1_render (name : string) (data : Data) : fails_by_exit_1 (render name data).
Proof.
  unfold render, ExecuteTemplate, log_Print. repeat end_step.
  - destruct (a0 !! name) as [[tree|]|]; repeat end_step.
    destruct (Execute a0 tree data); repeat end_step.
  - destruct a0; repeat end_step.
Qed.

Lemma exit_1_serve (mux : ServeMux) (r : Request) : fails_by_exit_1 (serve host mux r).
Proof.
  unfold serve. destruct (String.eqb (RequestURI r) "*"); [apply exit_1_emit|].
  destruct (mux_Handler mux r) as [[db|]|location|].
  - unfold Handler_ServeHTTP. repeat end_step.
    destruct (QueryRow_Scan _) as [[id name]|e]; [apply exit_1_render | end_step].
  - apply exit_1_emit.
  - repeat end_step.
  - repeat end_step.
Qed.

Lemma exit_1_http_ListenAndServe (addr : string) (mux : ServeMux) (reqs : list Request) :
  fails_by_exit_1 (http_ListenAndServe host addr mux reqs).
Proof.
  unfold http_ListenAndServe. destruct (http_Listen host addr); [|apply exit_1_ret].
  repeat end_step. apply exit_1_for_each. intros r. apply exit_1_serve.
Qed.

End Endings.

Section MainFacts.
Context `{TemplateEngine} `{RowCodec}.
Variable host : Host.

Lemma connectDB_eq (st : State) :
  connectDB host st =
  let url := default EmptyString (lookup_env (environ st) "DATABASE_URL") in
  match pgx_Connect host url with
  | Err e => (Exit 1, add_events st [Log e])
  | Ok _ => new_conn url st
  end.
Proof.
  unfold connectDB, os_Getenv. rewrite !bind_eq. cbn.
  destruct (pgx_Connect host _); reflexivity.
Qed.

Lemma registered_single (a p : string) (h : HandlerRef) :
  registered [(a, h)] p = if String.eqb a p then Some h else None.
Proof. unfold registered. cbn. destruct (String.eqb a p); reflexivity. Qed.

(** [main] up to the complete mux, in closed form. *)
Lemma main_setup_eq (st : State) :
  main_setup host st =
  match lookup_env (environ st) "PORT" with
  | None => (Exit 1, add_events st [Stdout (not_set_diag "PORT")])
  | Some port =>
      let url := default EmptyString (lookup_env (environ st) "DATABASE_URL") in
      match pgx_Connect host url with
      | Err e => (Exit 1, add_events st [Log ("Running on port " +:+ port); Log e])
      | Ok _ =>
          let adminPath := default "/admin/" (lookup_env (environ st) "ADMIN_PATH") in
          let st' :=
            {| environ := environ st; rootTemplate := rootTemplate st;
               trace := trace st ++ [Log ("Running on port " +:+ port);
                                     Connect url (conns st);
                                     Log ("Serving admin site from " +:+ adminPath)];
               conns := S (conns st); deferred := conns st :: deferred st |} in
          if String.eqb adminPath EmptyString then (Panic "http: invalid pattern", st')
          else if String.eqb adminPath "/"
               then (Panic "http: multiple registrations for /", st')
               else (Ret (port, [(adminPath, AdminHandlerRef);
                                 ("/", PrimaryHandler (conns st))]), st')
      end
  end.
Proof.
  unfold main_setup. rewrite bind_eq.
  destruct (lookup_env (environ st) "PORT") as [port|] eqn:Hport.
  - rewrite (fetchEnv_set _ _ _ Hport). rewrite bind_eq. cbn [log_Print emit].
    rewrite bind_eq, connectDB_eq. cbn [add_events environ].
    destruct (pgx_Connect host _) as [[]|e].
    + cbn [new_conn]. rewrite bind_eq. cbn [defer_Close].
      rewrite bind_eq, fetchEnvDef_eq. cbn [environ].
      rewrite bind_eq. cbn [log_Print emit add_events trace environ rootTemplate conns deferred].
      rewrite bind_eq. unfold http_Handle at 1.
      destruct (String.eqb (default "/admin/" _) EmptyString) eqn:Hempty.
      { unfold panic, add_events. cbn [trace environ rootTemplate conns deferred].
        rewrite <- !app_assoc. reflexivity. }
      change (registered [] _) with (@None HandlerRef). cbn [app].
      unfold mret at 1, M_ret at 1. rewrite bind_eq.
      unfold http_Handle. cbn [String.eqb]. rewrite registered_single.
      destruct (String.eqb (default "/admin/" _) "/") eqn:Hroot.
      * unfold panic, add_events. cbn [trace environ rootTemplate conns deferred].
        rewrite <- !app_assoc. reflexivity.
      * unfold mret, M_ret, add_events.
        cbn [trace environ rootTemplate conns deferred].
        rewrite <- !app_assoc. reflexivity.
    + rewrite ?bind_eq. unfold add_events.
      cbn [trace environ rootTemplate conns deferred]. rewrite <- ?app_assoc. reflexivity.
  - rewrite (fetchEnv_unset _ _ Hport). reflexivity.
Qed.

Lemma main_eq (reqs : list Request) (st : State) :
  main host reqs st =
  match main_setup host st with
  | (Ret (port, mux), st1) =>
      match http_Listen host (":" +:+ port) with
      | Err e => (Exit 1, add_events st1 [Log e])
      | Ok _ =>
          match for_each (serve host mux) reqs (add_events st1 [Listen (":" +:+ port)]) with
          | (Ret _, st2) => (Ret tt, st2)
          | (Exit c, st2) => (Exit c, st2)
          | (Panic e, st2) => (Panic e, st2)
          end
      end
  | (Exit c, st1) => (Exit c, st1)
  | (Panic e, st1) => (Panic e, st1)
  end.
Proof.
  unfold main. rewrite bind_eq.
  destruct (main_setup host st) as [[[port mux]| |] st1]; try reflexivity.
  unfold http_ListenAndServe. rewrite bind_eq.
  destruct (http_Listen host _) as [[]|e]; [|reflexivity].
  rewrite (bind_eq (emit _)). unfold emit at 1.
  rewrite (bind_eq (for_each _ _)).
  destruct (for_each (serve host mux) reqs _) as [[[]| |] st2]; reflexivity.
Qed.

(** What a returning [init] has done. *)
Lemma init_Ret (st st' : State) :
  init host st = (Ret tt, st') ->
  exists s1 s2,
    loadEnv host st = (Ret tt, s1) /\
    loadTemplates host s1 = (Ret tt, s2) /\
    connectDB host s2 = (Ret (conns st), st') /\
    environ st' = environ s1 /\ rootTemplate st' = rootTemplate s2 /\
    conns st' = S (conns st).
Proof.
  unfold init. intros Hr.
  apply bind_Ret_inv in Hr as ([] & s1 & Henv & Hr).
  apply bind_Ret_inv in Hr as ([] & s2 & Htmpl & Hr).
  apply bind_Ret_inv in Hr as (c & s3 & Hdb & Hr).
  inversion Hr; subst; clear Hr.
  pose proof (frames_loadEnv host (fun _ => True) (fun _ => I) _ _ _ Henv) as (Hc1 & _).
  pose proof (frames_loadTemplates host (fun _ => True) (fun _ => I) _ _ _ Htmpl) as (Hc2 & _).
  pose proof (preserves_loadTemplates host environ (fun _ _ _ _ => eq_refl)
                (fun _ _ => eq_refl) _ _ _ Htmpl) as He2.
  pose proof (preserves_connectDB host rootTemplate (fun _ _ _ _ => eq_refl) _ _ _ Hdb) as Hr3.
  destruct (connectDB_Ret _ _ _ _ Hdb) as (-> & Hc3 & _ & He3 & _).
  exists s1, s2. rewrite Hc2, Hc1 in *. repeat split; congruence.
Qed.

(** Package initialisation leaves alone the variables the file does not name. *)
Lemma init_other (st st' : State) (o : outcome unit) (k : string) :
  init host st = (o, st') ->
  (forall file, dotenv host = Ok file -> Forall (fun t => entry_key t <> k) (tokens file)) ->
  environ st' !! k = environ st !! k.
Proof.
  intros Hr Hnone.
  assert (forall s o1 s1, loadEnv host s = (o1, s1) -> environ s1 !! k = environ s !! k)
    as Henv.
  { intros s o1 s1 Hl. unfold loadEnv in Hl.
    destruct (dotenv host) as [file|e] eqn:Hfile.
    - eapply loadEnv_scan_other; [exact Hl | now apply Hnone].
    - rewrite log_Fatal_eq in Hl. inversion Hl; subst. reflexivity. }
  assert (preserves environ (loadTemplates host ≫= fun _ : unit =>
            connectDB host ≫= fun _ : nat => mret tt)) as Hrest.
  { apply preserves_bind; [now apply preserves_loadTemplates | intros _].
    apply preserves_bind; [now apply preserves_connectDB | intros _].
    apply preserves_ret. }
  unfold init in Hr. rewrite bind_eq in Hr.
  destruct (loadEnv host st) as [[[]| |] s1] eqn:Hl.
  - rewrite (Hrest _ _ _ Hr). eapply Henv; exact Hl.
  - inversion Hr; subst. eapply Henv; exact Hl.
  - inversion Hr; subst. eapply Henv; exact Hl.
Qed.

Lemma add_events_not_started (st : State) (evs : list event) :
  ~ started st -> Forall not_a_listen evs -> ~ started (add_events st evs).
Proof.
  intros Hst Hevs [addr Hin]. cbn in Hin. apply in_app_or in Hin as [Hin|Hin].
  - apply Hst. now exists addr.
  - now apply (not_a_listen_absent evs addr).
Qed.


(** X11: without PORT in the environment and in the file the process exits with
    status 1 and never listens; when initialisation went through, it has then
    already opened a connection, and the diagnostic goes to standard output. *)
Theorem missing_PORT_stops_the_process
    (reqs : list Request) (st st' : State) (o : outcome unit) :
  environ st !! "PORT" = None ->
  (forall file, dotenv host = Ok file ->
     Forall (fun t => entry_key t <> "PORT") (tokens file)) ->
  process host reqs st = (o, st') ->
  o = Exit 1 /\
  (~ started st -> ~ started st') /\
  (forall st1, init host st = (Ret tt, st1) ->
     st' = add_events st1 [Stdout (not_set_diag "PORT")] /\ conns st' = S (conns st)).
Proof.
  intros Hunset Hnone Hr. unfold process in Hr. rewrite bind_eq in Hr.
  destruct (init host st) as [o1 s1] eqn:Hinit.
  assert (~ started st -> ~ started s1) as Hs1.
  { intros Hst. refine (not_started_before_listening _ _ _ _ _ Hst Hinit).
    apply emits_init; intros; reflexivity. }
  pose proof (init_other _ _ _ "PORT" Hinit Hnone) as Hport.
  destruct (exit_1_init host _ _ _ Hinit) as [[[] ->]| ->].
  - assert (lookup_env (environ s1) "PORT" = None) as Hl
      by (unfold lookup_env; cbn; congruence).
    rewrite main_eq, main_setup_eq, Hl in Hr. inversion Hr; subst.
    split; [reflexivity|]. split.
    + intros Hst. apply add_events_not_started; [auto|]. repeat constructor.
    + intros st1 E. inversion E; subst. split; [reflexivity|].
      destruct (init_Ret _ _ Hinit) as (sa & sb & _ & _ & _ & _ & _ & Hc). exact Hc.
  - inversion Hr; subst. split; [reflexivity|]. split; [exact Hs1|].
    intros st1 E. discriminate.
Qed.

(** X12: when no connection can be made the process exits with status 1 in
    [init]: nothing but log lines is produced, PORT is never asked for. *)
Theorem unreachable_database_stops_init
    (reqs : list Request) (st st' : State) (o : outcome unit) :
  (forall url, exists e, pgx_Connect host url = Err e) ->
  process host reqs st = (o, st') ->
  o = Exit 1 /\ conns st' = conns st /\
  exists evs, trace st' = trace st ++ evs /\ Forall (fun e => is_Log e = true) evs.
Proof.
  intros Hdown Hr. unfold process in Hr. rewrite bind_eq in Hr.
  destruct (init host st) as [o1 s1] eqn:Hinit.
  assert (o1 = Exit 1 /\ grows (fun e => is_Log e = true) st s1) as [-> Hg].
  { unfold init in Hinit. rewrite bind_eq in Hinit.
    destruct (loadEnv host st) as [oe se] eqn:Henv.
    pose proof (frames_loadEnv host (fun e => is_Log e = true) (fun _ => eq_refl)
                  _ _ _ Henv) as Hge.
    destruct (exit_1_loadEnv host _ _ _ Henv) as [[[] ->]| ->];
      [|inversion Hinit; subst; now split].
    rewrite bind_eq in Hinit.
    destruct (loadTemplates host se) as [ot s2] eqn:Htmpl.
    pose proof (frames_loadTemplates host (fun e => is_Log e = true) (fun _ => eq_refl)
                  _ _ _ Htmpl) as Hgt.
    destruct (exit_1_loadTemplates host _ _ _ Htmpl) as [[[] ->]| ->];
      [|inversion Hinit; subst; split; [reflexivity | eapply grows_trans; eassumption]].
    rewrite bind_eq, connectDB_eq in Hinit. cbn zeta in Hinit.
    destruct (Hdown (default EmptyString (lookup_env (environ s2) "DATABASE_URL")))
      as [e He].
    rewrite He in Hinit. inversion Hinit; subst. split; [reflexivity|].
    eapply grows_trans; [eassumption|]. eapply grows_trans; [eassumption|].
    apply grows_add_events. repeat constructor. }
  inversion Hr; subst. destruct Hg as (Hc & _ & Hev). auto.
Qed.

(** X13: the process panics only on an ADMIN_PATH that is empty or [/], and
    then after both connections were opened; every other failure is an exit
    with status 1. *)
Theorem process_panics_only_on_a_bad_admin_path
    (reqs : list Request) (st st' : State) (o : outcome unit) :
  process host reqs st = (o, st') ->
  o = Ret tt \/ o = Exit 1 \/
  exists msg,
    o = Panic msg /\
    (lookup_env (environ st') "ADMIN_PATH" = Some EmptyString \/
     lookup_env (environ st') "ADMIN_PATH" = Some "/") /\
    conns st' = S (S (conns st)) /\
    (~ started st -> ~ started st').
Proof.
  intros Hr. unfold process in Hr. rewrite bind_eq in Hr.
  destruct (init host st) as [o1 s1] eqn:Hinit.
  destruct (exit_1_init host _ _ _ Hinit) as [[[] ->]| ->];
    [|inversion Hr; subst; auto].
  destruct (init_Ret _ _ Hinit) as (sa & sb & _ & _ & _ & _ & _ & Hc1).
  assert (~ started st -> ~ started s1) as Hs1.
  { intros Hst. refine (not_started_before_listening _ _ _ _ _ Hst Hinit).
    apply emits_init; intros; reflexivity. }
  rewrite main_eq in Hr.
  destruct (main_setup host s1) as [[[port mux]|c|msg] s2] eqn:Hsetup.
  - destruct (http_Listen host _) as [[]|e]; [|inversion Hr; subst; auto].
    match type of Hr with context [for_each ?f ?l ?s] =>
      destruct (for_each f l s) as [o3 s3] eqn:Hreqs end.
    assert (fails_by_exit_1 (for_each (serve host mux) reqs)) as Hends
      by (apply exit_1_for_each; intros r; apply exit_1_serve).
    destruct (Hends _ _ _ Hreqs) as [[[] ->]| ->]; inversion Hr; subst; auto.
  - rewrite main_setup_eq in Hsetup.
    destruct (lookup_env (environ s1) "PORT"); [|inversion Hsetup; inversion Hr; subst; auto].
    cbn zeta in Hsetup. destruct (pgx_Connect host _) as [[]|e];
      [|inversion Hsetup; inversion Hr; subst; auto].
    destruct (String.eqb _ EmptyString); [discriminate|].
    destruct (String.eqb _ "/"); discriminate.
  - right. right. exists msg. inversion Hr; subst. split; [reflexivity|].
    rewrite main_setup_eq in Hsetup.
    destruct (lookup_env (environ s1) "PORT") as [port|]; [|discriminate].
    cbn zeta in Hsetup. destruct (pgx_Connect host _) as [[]|e]; [|discriminate].
    destruct (lookup_env (environ s1) "ADMIN_PATH") as [a|] eqn:Ha; cbn [default from_option] in Hsetup.
    + change (id a) with a in Hsetup.
      destruct (String.eqb a EmptyString) eqn:E1.
      * apply String.eqb_eq in E1 as ->. inversion Hsetup; subst. cbn [environ conns]. rewrite Ha, Hc1.
        repeat split; auto.
        intros Hst. apply (add_events_not_started s1); [auto|]. repeat constructor.
      * destruct (String.eqb a "/") eqn:E2; [|discriminate].
        apply String.eqb_eq in E2 as ->. inversion Hsetup; subst. cbn [environ conns]. rewrite Ha, Hc1.
        repeat split; auto.
        intros Hst. apply (add_events_not_started s1); [auto|]. repeat constructor.
    + cbn in Hsetup. discriminate.
Qed.

(** X14: an ADMIN_PATH set to the empty string is used as it is (the default
    is for an unset variable only) and makes [main] panic when it registers
    its handlers, as does [/]: the second connection is open by then, the
    admin path has been logged, and no listener is bound. *)
Theorem bad_admin_path_panics
    (reqs : list Request) (st : State) (port a : string) :
  lookup_env (environ st) "PORT" = Some port ->
  pgx_Connect host (default EmptyString (lookup_env (environ st) "DATABASE_URL")) = Ok tt ->
  lookup_env (environ st) "ADMIN_PATH" = Some a ->
  a = EmptyString \/ a = "/" ->
  exists msg st',
    main host reqs st = (Panic msg, st') /\
    conns st' = S (conns st) /\
    trace st' = trace st ++ [Log ("Running on port " +:+ port);
                             Connect (default EmptyString
                                        (lookup_env (environ st) "DATABASE_URL")) (conns st);
                             Log ("Serving admin site from " +:+ a)].
Proof.
  intros Hport Hdb Ha Hbad. rewrite main_eq, main_setup_eq, Hport. cbn zeta.
  rewrite Hdb, Ha. cbn [default from_option]. change (id a) with a.
  destruct Hbad as [-> | ->]; cbn [String.eqb Ascii.eqb Bool.eqb];
    eexists _, _; (split; [reflexivity|]); split; reflexivity.
Qed.

(** X15: a request (its target not [*]) whose query fails ends the process:
    the requests after it are not served. *)
Theorem failed_query_ends_serving
    (mux : ServeMux) (pre post : list Request) (r : Request) (db : nat)
    (e : string) (st s1 : State) :
  RequestURI r <> "*" ->
  mux_Handler mux r = Serve (PrimaryHandler db) ->
  QueryRow_Scan (pgx_Query host db users_query) = Err e ->
  for_each (serve host mux) pre st = (Ret tt, s1) ->
  for_each (serve host mux) (pre ++ r :: post) st =
  (Exit 1, add_events s1 [Query db users_query; Log ("Query failed: " +:+ e)]).
Proof.
  intros Hstar Hroute Hq Hpre. rewrite for_each_app, bind_eq, Hpre.
  rewrite for_each_cons, bind_eq, (serve_handler _ _ _ _ Hstar), Hroute.
  now rewrite (Handler_query_failed _ _ _ _ _ Hq).
Qed.

(** X9: a template [hello] that is not in the namespace is found out only by
    the first request the primary handler serves: the query is made, the
    rendering is logged, and the process exits with status 1 on the
    undefined-template error; nothing is written and the requests after it
    are not served. *)
Theorem request_without_hello_template_ends_serving
    (mux : ServeMux) (pre post : list Request) (r : Request) (db : nat)
    (id : Z) (name : string) (st s1 : State) :
  rootTemplate st !! "hello" = None ->
  RequestURI r <> "*" ->
  mux_Handler mux r = Serve (PrimaryHandler db) ->
  QueryRow_Scan (pgx_Query host db users_query) = Ok (id, name) ->
  for_each (serve host mux) pre st = (Ret tt, s1) ->
  for_each (serve host mux) (pre ++ r :: post) st =
  (Exit 1, add_events s1 [Query db users_query; Log "Rendering template hello";
                          Log (undefined_diag "hello")]).
Proof.
  intros Hnone Hstar Hroute Hq Hpre.
  assert (rootTemplate s1 = rootTemplate st) as Hreg.
  { refine (preserves_for_each rootTemplate _ pre _ _ _ _ Hpre).
    intros a. now apply preserves_serve. }
  rewrite for_each_app, bind_eq, Hpre.
  rewrite for_each_cons, bind_eq, (serve_handler _ _ _ _ Hstar), Hroute.
  unfold Handler_ServeHTTP. rewrite bind_eq. cbn [emit]. rewrite Hq.
  rewrite render_undefined by (cbn [rootTemplate add_events]; now rewrite Hreg).
  now rewrite add_events_app.
Qed.

End MainFacts.

(** * Routing for any admin path *)

Lemma registered_two (a b p : string) (h1 h2 : HandlerRef) :
  registered [(a, h1); (b, h2)] p =
  if String.eqb a p then Some h1 else if String.eqb b p then Some h2 else None.
Proof.
  unfold registered. cbn [find fst snd].
  destruct (String.eqb a p); [reflexivity|]. destruct (String.eqb b p); reflexivity.
Qed.

Lemma string_length_app (s t : string) :
  String.length (s +:+ t) = String.length s + String.length t.
Proof. induction s as [|a s IH]; app_simpl; [reflexivity | now rewrite IH]. Qed.

Lemma HasPrefix_length (s p : string) :
  HasPrefix s p = true -> String.length p <= String.length s.
Proof.
  revert s. induction p as [|b p IH]; intros s Hp; [cbn; lia|].
  destruct s as [|a s]; [discriminate|]. cbn in Hp.
  apply andb_true_iff in Hp as [_ Hp]. cbn. apply IH in Hp. lia.
Qed.

Lemma ends_with_slash_snoc (s : string) : ends_with_slash (s +:+ "/") = true.
Proof.
  unfold ends_with_slash, last_byte.
  assert (list_ascii_of_string (s +:+ "/") = list_ascii_of_string s ++ [SLASH]) as ->.
  { induction s as [|a s IH]; app_simpl; [reflexivity | now rewrite IH]. }
  now rewrite last_snoc.
Qed.

Section AdminMux.
Variable adminPath : string.
Variable db : nat.
Hypothesis admin_not_empty : adminPath <> EmptyString.
Hypothesis admin_not_root : adminPath <> "/".

Lemma admin_not_prefix_of_root : HasPrefix "/" adminPath = false.
Proof.
  destruct adminPath as [|a [|b s]] eqn:E; [contradiction| |].
  - cbn [HasPrefix]. destruct (Ascii.eqb_spec "/"%char a) as [<-|]; [contradiction | reflexivity].
  - cbn [HasPrefix]. now rewrite andb_false_r.
Qed.

(** The subtree-root redirect of the mux [main] builds. *)
Lemma admin_shouldRedirect (s : string) :
  shouldRedirect (admin_mux adminPath db) (String SLASH s) =
  String.eqb (String SLASH s +:+ "/") adminPath && negb (ends_with_slash (String SLASH s)).
Proof.
  unfold shouldRedirect, admin_mux. rewrite !registered_two. cbn [String.length Nat.eqb].
  assert (String.eqb "/" (String SLASH s +:+ "/") = false) as ->.
  { apply String.eqb_neq. rewrite append_cons. intros E. inversion E as [E'].
    destruct s; discriminate. }
  rewrite (String.eqb_sym adminPath (String SLASH s +:+ "/")).
  destruct (String.eqb_spec adminPath (String SLASH s)) as [E|Hne].
  - symmetry. rewrite E. apply andb_false_iff. left. apply String.eqb_neq.
    intros E'. apply (f_equal String.length) in E'. rewrite string_length_app in E'. cbn in E'. lia.
  - destruct (String.eqb_spec "/" (String SLASH s)) as [E|_].
    + inversion E; subst. cbn. now rewrite andb_false_r.
    + destruct (String.eqb _ adminPath); reflexivity.
Qed.

(** Where the mux [main] builds sends a rooted path. *)
Lemma admin_mux_match (s : string) :
  mux_match (admin_mux adminPath db) (String SLASH s) =
  if String.eqb (String SLASH s) adminPath
     || ends_with_slash adminPath && HasPrefix (String SLASH s) adminPath
  then Serve AdminHandlerRef else Serve (PrimaryHandler db).
Proof.
  unfold mux_match, admin_mux. rewrite registered_two.
  rewrite (String.eqb_sym adminPath (String SLASH s)).
  destruct (String.eqb (String SLASH s) adminPath); [reflexivity|]. cbn [orb].
  destruct (String.eqb_spec "/" (String SLASH s)) as [E|_].
  - rewrite <- E, admin_not_prefix_of_root. now rewrite andb_false_r.
  - unfold longest_subtree. cbn [fold_left fst snd].
    destruct (ends_with_slash adminPath && HasPrefix (String SLASH s) adminPath).
    + change (ends_with_slash "/" && HasPrefix (String SLASH s) "/") with true.
      cbn iota.
      destruct adminPath as [|a t]; [contradiction|]. reflexivity.
    + reflexivity.
Qed.

(** The answer of the mux to a request other than CONNECT. *)
Lemma admin_mux_Handler (r : Request) :
  Method r <> "CONNECT" ->
  mux_Handler (admin_mux adminPath db) r =
  let path := cleanPath (URLPath r) in
  if String.eqb (path +:+ "/") adminPath && negb (ends_with_slash path)
  then RedirectTo adminPath
  else if negb (String.eqb path (URLPath r)) then RedirectTo path
  else if String.eqb path adminPath || ends_with_slash adminPath && HasPrefix path adminPath
       then Serve AdminHandlerRef
       else Serve (PrimaryHandler db).
Proof.
  intros Hm. unfold mux_Handler.
  destruct (String.eqb_spec (Method r) "CONNECT") as [E|_]; [contradiction|].
  cbv zeta. destruct (cleanPath_rooted (URLPath r)) as [s Hs]. rewrite Hs.
  rewrite admin_shouldRedirect.
  destruct (String.eqb_spec (String SLASH s +:+ "/") adminPath) as [E|_].
  - cbn [andb]. destruct (negb (ends_with_slash (String SLASH s))); [now rewrite E|].
    destruct (String.eqb_spec (String SLASH s) (URLPath r)) as [E'|_]; [|reflexivity].
    cbn [negb]. rewrite <- E'. apply admin_mux_match.
  - cbn [andb].
    destruct (String.eqb_spec (String SLASH s) (URLPath r)) as [E'|_]; [|reflexivity].
    cbn [negb]. rewrite <- E'. apply admin_mux_match.
Qed.

End AdminMux.

Section MoreRouting.
Context `{TemplateEngine} `{RowCodec}.
Variable host : Host.

Lemma main_setup_mux (st st' : State) (port : string) (mux : ServeMux) :
  main_setup host st = (Ret (port, mux), st') ->
  let adminPath := default "/admin/" (lookup_env (environ st) "ADMIN_PATH") in
  mux = admin_mux adminPath (conns st) /\
  adminPath <> EmptyString /\ adminPath <> "/".
Proof.
  intros Hr. cbv zeta. rewrite main_setup_eq in Hr.
  destruct (lookup_env (environ st) "PORT"); [|discriminate].
  cbv zeta in Hr. destruct (pgx_Connect host _) as [[]|e]; [|discriminate].
  destruct (String.eqb_spec (default "/admin/" (lookup_env (environ st) "ADMIN_PATH"))
              EmptyString) as [|Hne]; [discriminate|].
  destruct (String.eqb_spec (default "/admin/" (lookup_env (environ st) "ADMIN_PATH"))
              "/") as [|Hne']; [discriminate|].
  inversion Hr; subst. auto.
Qed.

(** X16: the whole routing table of the mux [main] builds (a classic
    ServeMux with host-less patterns, so for an admin path that begins with
    '/'), for a request other than CONNECT.  With [path] the cleaned request
    path: the admin path without its trailing slash is redirected to the
    admin path; any other path that is not in cleaned form is redirected to
    its cleaned form; the admin path itself and, when it ends in '/', every
    path under it go to the admin handler; everything else goes to the
    primary handler, which holds the connection [main] opened. *)
Theorem routes_of_the_default_mux
    (st st' : State) (port : string) (mux : ServeMux) (r : Request) :
  main_setup host st = (Ret (port, mux), st') ->
  HasPrefix (default "/admin/" (lookup_env (environ st) "ADMIN_PATH")) "/" = true ->
  Method r <> "CONNECT" ->
  mux_Handler mux r =
  let adminPath := default "/admin/" (lookup_env (environ st) "ADMIN_PATH") in
  let path := cleanPath (URLPath r) in
  if String.eqb (path +:+ "/") adminPath && negb (ends_with_slash path)
  then RedirectTo adminPath
  else if negb (String.eqb path (URLPath r)) then RedirectTo path
  else if String.eqb path adminPath || ends_with_slash adminPath && HasPrefix path adminPath
       then Serve AdminHandlerRef
       else Serve (PrimaryHandler (conns st)).
Proof.
  intros Hsetup _ Hm. destruct (main_setup_mux _ _ _ _ Hsetup) as (-> & Hne & Hroot).
  now apply admin_mux_Handler.
Qed.

(** X17: with the mux [main] builds no request other than CONNECT is answered
    404 Not Found: the mux always finds a handler or redirects, since [/] is
    registered, and serving the request writes no status line 404. *)
Theorem ordinary_requests_are_never_not_found
    (st st' s s' : State) (port : string) (mux : ServeMux) (r : Request)
    (o : outcome unit) :
  main_setup host st = (Ret (port, mux), st') ->
  Method r <> "CONNECT" ->
  serve host mux r s = (o, s') ->
  mux_Handler mux r <> NotFound /\
  exists evs, trace s' = trace s ++ evs /\ ~ In (WriteHeader 404) evs.
Proof.
  intros Hsetup Hm Hserve.
  destruct (main_setup_mux _ _ _ _ Hsetup) as (-> & Hne & Hroot).
  pose proof (admin_mux_Handler _ (conns st) Hne Hroot r Hm) as Hroute.
  cbv zeta in Hroute.
  assert (mux_Handler (admin_mux (default "/admin/" (lookup_env (environ st) "ADMIN_PATH"))
                         (conns st)) r <> NotFound) as Hfound.
  { rewrite Hroute. destruct (_ && _); [discriminate|].
    destruct (negb _); [discriminate|]. destruct (_ || _); discriminate. }
  split; [exact Hfound|].
  unfold serve in Hserve. destruct (String.eqb (RequestURI r) "*").
  { inversion Hserve; subst. exists [WriteHeader 400]. split; [reflexivity|].
    intros [E|[]]. discriminate. }
  destruct (mux_Handler _ r) as [[c|]|location|] eqn:Hh; [| | |contradiction].
  - assert (frames (fun e => e <> WriteHeader 404) (Handler_ServeHTTP host c r)) as Hf.
    { unfold Handler_ServeHTTP. apply frames_bind; [now apply frames_emit | intros _].
      destruct (QueryRow_Scan _) as [[id name]|e].
      - now apply frames_render.
      - now apply frames_log_Fatal. }
    destruct (Hf _ _ _ Hserve) as (_ & _ & evs & Ht & Hall).
    exists evs. split; [exact Ht|]. intros Hin.
    rewrite List.Forall_forall in Hall. now apply (Hall _ Hin).
  - inversion Hserve; subst. exists [WriteBody "Admin foo"]. split; [reflexivity|].
    intros [E|[]]. discriminate.
  - inversion Hserve; subst. exists [Redirected location; WriteHeader 301].
    split; [cbn; now rewrite <- app_assoc|].
    intros [E|[E|[]]]; discriminate.
Qed.

End MoreRouting.

Lemma quiet_filters (evs : list event) :
  Forall quiet evs ->
  List.filter is_Connect evs = [] /\ List.filter is_Listen evs = [].
Proof.
  induction 1 as [|e evs [Hc Hl] _ [IHc IHl]]; cbn; [auto|]. now rewrite Hc, Hl.
Qed.

Section StartupEnvironment.
Context `{TemplateEngine} `{RowCodec}.
Variable host : Host.

Lemma frames_quiet_serve (mux : ServeMux) (r : Request) :
  frames quiet (serve host mux r).
Proof.
  assert (forall msg, quiet (Log msg)) as Hlog by (intros; split; reflexivity).
  unfold serve.
  destruct (String.eqb (RequestURI r) "*"); [apply frames_emit; split; reflexivity|].
  destruct (mux_Handler mux r) as [[db|]|location|].
  - unfold Handler_ServeHTTP.
    apply frames_bind; [apply frames_emit; split; reflexivity | intros _].
    destruct (QueryRow_Scan _) as [[id name]|e].
    + apply frames_render; [exact Hlog | intros; split; reflexivity].
    + apply frames_log_Fatal, Hlog.
  - apply frames_emit. split; reflexivity.
  - apply frames_bind; [|intros _]; apply frames_emit; split; reflexivity.
  - apply frames_bind; [|intros _]; apply frames_emit; split; reflexivity.
Qed.

(** X18: a process that has started took its port and its database URL from the
    environment as loadEnv left it; both connections were made with that URL
    (the empty one when DATABASE_URL is unset), and it listens on the port. *)
Theorem started_process_runs_on_the_loaded_environment
    (reqs : list Request) (st st' : State) (o : outcome unit) :
  process host reqs st = (o, st') ->
  ~ started st ->
  started st' ->
  exists s1 port evs,
    loadEnv host st = (Ret tt, s1) /\
    environ st' = environ s1 /\
    lookup_env (environ s1) "PORT" = Some port /\
    trace st' = trace st ++ evs /\
    List.filter is_Connect evs =
      [Connect (default EmptyString (lookup_env (environ s1) "DATABASE_URL")) (conns st);
       Connect (default EmptyString (lookup_env (environ s1) "DATABASE_URL"))
         (S (conns st))] /\
    List.filter is_Listen evs = [Listen (":" +:+ port)].
Proof.
  intros Hr Hs0 Hstarted. unfold process in Hr. rewrite bind_eq in Hr.
  assert (forall msg, quiet (Log msg)) as Hlog by (intros; split; reflexivity).
  destruct (init host st) as [o3 s3] eqn:Hinit.
  assert (~ started s3) as Hs3.
  { refine (not_started_before_listening _ _ _ _ _ Hs0 Hinit).
    apply emits_init; intros; reflexivity. }
  destruct o3 as [[]|c|e]; [|inversion Hr; subst; contradiction..].
  destruct (init_Ret _ _ _ Hinit) as (s1 & s2 & Henv & Htmpl & Hdb & He3 & _ & Hc3).
  pose proof (frames_loadEnv host quiet Hlog _ _ _ Henv) as (Hc1 & _ & e1 & Ht1 & Hq1).
  pose proof (frames_loadTemplates host quiet Hlog _ _ _ Htmpl) as (Hc2 & _ & e2 & Ht2 & Hq2).
  pose proof (preserves_loadTemplates host environ (fun _ _ _ _ => eq_refl)
                (fun _ _ => eq_refl) _ _ _ Htmpl) as He2.
  rewrite connectDB_eq in Hdb. cbv zeta in Hdb. rewrite He2 in Hdb.
  destruct (pgx_Connect host _) as [[]|e] eqn:Hconn; [|discriminate].
  assert (trace s3 = trace s2 ++
            [Connect (default EmptyString (lookup_env (environ s1) "DATABASE_URL"))
               (conns st)]) as Ht3.
  { inversion Hdb; subst. cbn. now rewrite Hc2, Hc1. }
  pose proof (preserves_main host environ (fun _ _ _ _ => eq_refl) reqs _ _ _ Hr) as Hem.
  rewrite main_eq in Hr.
  destruct (main_setup host s3) as [o4 s4] eqn:Hsetup.
  assert (~ started s4) as Hs4.
  { refine (not_started_before_listening _ _ _ _ _ Hs3 Hsetup).
    apply emits_main_setup; intros; reflexivity. }
  destruct o4 as [[port mux]|c|e]; [|inversion Hr; subst; contradiction..].
  rewrite main_setup_eq in Hsetup. rewrite He3 in Hsetup.
  destruct (lookup_env (environ s1) "PORT") as [port'|] eqn:Hport; [|discriminate].
  cbv zeta in Hsetup. rewrite Hconn in Hsetup.
  destruct (String.eqb _ EmptyString); [discriminate|].
  destruct (String.eqb _ "/"); [discriminate|].
  inversion Hsetup; subst port' mux s4. clear Hsetup.
  destruct (http_Listen host _) as [[]|e].
  2:{ exfalso. inversion Hr; subst. destruct Hstarted as [addr Hin]. cbn in Hin.
      apply in_app_or in Hin as [Hin|[Hin|[]]]; [|discriminate].
      apply Hs4. now exists addr. }
  match type of Hr with
  | context [for_each ?f ?l ?s] => destruct (for_each f l s) as [o5 s5] eqn:Hreqs
  end.
  apply (frames_for_each quiet (serve host _) reqs) in Hreqs as (_ & _ & e5 & Ht5 & Hq5);
    [|intros r; apply frames_quiet_serve].
  assert (st' = s5) as -> by (destruct o5 as [[]|c|e]; inversion Hr; reflexivity).
  cbn [add_events trace] in Ht5.
  exists s1, port. eexists. split; [exact Henv|]. split; [congruence|].
  split; [exact Hport|]. split.
  { rewrite Ht5, Ht3, Ht2, Ht1. rewrite <- !app_assoc. reflexivity. }
  destruct (quiet_filters _ Hq1) as [Hf1 Hl1].
  destruct (quiet_filters _ Hq2) as [Hf2 Hl2].
  destruct (quiet_filters _ Hq5) as [Hf5 Hl5].
  rewrite !List.filter_app, Hf1, Hf2, Hf5, Hl1, Hl2, Hl5, Hc3. split; reflexivity.
Qed.

End StartupEnvironment.


(** * The statements on concrete hosts *)

Section Evaluations.
Import Sample.

(** C1 as stated fails: the one query the handler sends while serving a
    request reads [select * from users]; no query with the text
    [select id, name from users] is ever sent. *)
Lemma handler_query_text_is_select_star :
  exists st',
    process one_user [GET "/"] (start []) = (Ret tt, st') /\
    List.filter is_Query (trace st') = [Query 1 "select * from users"] /\
    ~ In (Query 1 "select id, name from users") (trace st').
Proof.
  eexists. split; [vm_compute; reflexivity|].
  split; [vm_compute; reflexivity|].
  intros Hin. vm_compute in Hin.
  repeat (destruct Hin as [Hin|Hin]; [discriminate|]). exact Hin.
Qed.

(** C2 as stated fails: with two rows in the users table the request does
    not fail; it is served from the first row. *)
Lemma two_rows_are_served_from_the_first :
  exists st',
    process two_users [GET "/"] (start []) = (Ret tt, st') /\
    pgx_Query two_users 1 users_query =
      Ok [[CInt 1; CText "Ada"]; [CInt 2; CText "Bob"]] /\
    last (trace st') = Some (WriteBody "Hello Ada!").
Proof.
  eexists. split; [vm_compute; reflexivity|].
  split; vm_compute; reflexivity.
Qed.

(** C3: the code on a tree whose one body does not parse.  Startup goes
    through, the name is left bound to a template without a tree, and the
    first render of it ends the process. *)
Lemma unparsable_template_fails_at_first_render :
  exists st',
    init unparsable_template (start []) = (Ret tt, st') /\
    Parse "{{" = Err "unclosed action" /\
    rootTemplate st' !! "bad" = Some None /\
    render "bad" [] st' =
    (Exit 1, add_events st' [Log "Rendering template bad"; Log (incomplete_diag "bad")]).
Proof.
  eexists. split; [vm_compute; reflexivity|].
  split; [reflexivity|]. split; [vm_compute; reflexivity|].
  apply render_incomplete. vm_compute. reflexivity.
Qed.

(** C4 on a host with one user and one request. *)
Lemma started_process_has_opened_two_connections_witness :
  exists st',
    process one_user [GET "/"] (start []) = (Ret tt, st') /\
    started st' /\
    exists url0 url1,
      List.filter is_Connect (trace st') = [Connect url0 0; Connect url1 1] /\
      Forall (query_on 1) (trace st') /\
      deferred st' = [1].
Proof.
  eexists. split; [vm_compute; reflexivity|].
  assert (started (snd (process one_user [GET "/"] (start [])))) as Hs.
  { exists ":8080". vm_compute. tauto. }
  split; [exact Hs|].
  apply (started_process_has_opened_two_connections one_user [GET "/"] (list_to_map [])
           (Ret tt)); [vm_compute; reflexivity | exact Hs].
Defined.



(** C6 as stated fails: the second of two lines for the same unset key is
    well-formed, and the environment afterwards holds the value of the
    first. *)
Lemma duplicate_key_keeps_first_value :
  exists st',
    loadEnv duplicate_key (start []) = (Ret tt, st') /\
    dotenv duplicate_key = Ok (Scanned [line "A=1"; line "A=2"] None) /\
    Split (Text (line "A=2")) EQUALS = ["A"; "2"] /\
    lookup_env (environ (start [])) "A" = None /\
    lookup_env (environ st') "A" = Some "1" /\
    lookup_env (environ st') "A" <> Some "2".
Proof.
  eexists. split; [vm_compute; reflexivity|].
  repeat split; try reflexivity. vm_compute. discriminate.
Qed.

(** C6 (amended) on the first of two lines for one key. *)
Lemma loadEnv_first_entry_wins_witness :
  exists st',
    loadEnv duplicate_key (start []) = (Ret tt, st') /\
    (lookup_env (environ (start [])) "A" = None ->
     Forall (fun t => entry_key t <> "A") [] ->
     lookup_env (environ st') "A" = Some "1") /\
    (forall x, lookup_env (environ (start [])) "A" = Some x ->
               lookup_env (environ st') "A" = Some x).
Proof.
  eexists. split; [vm_compute; reflexivity|].
  apply (loadEnv_first_entry_wins duplicate_key (start []) _ [] [line "A=2"] (line "A=1")
           None "A" "1");
    [reflexivity | reflexivity | discriminate | reflexivity | reflexivity
    | vm_compute; reflexivity].
Defined.






(** C10 on the file with the one line [PORT=]. *)
Lemma empty_value_satisfies_fetchEnv_witness :
  exists st',
    loadEnv empty_port (start []) = (Ret tt, st') /\
    lookup_env (environ st') "PORT" = Some EmptyString /\
    fetchEnv "PORT" st' = (Ret EmptyString, st').
Proof.
  destruct (empty_value_satisfies_fetchEnv "PORT" (line "PORT=") (start [])
              eq_refl eq_refl ltac:(discriminate) eq_refl eq_refl eq_refl)
    as (_ & st1 & Hline & Hset & Hfetch).
  exists st1. split; [|split; [exact Hset|]].
  - unfold loadEnv. cbn [dotenv empty_port host_of map loadEnv_scan tokens].
    rewrite bind_eq, Hline. reflexivity.
  - apply (Hfetch [] (Ret tt)). reflexivity.
Defined.

(** ** The further statements on concrete hosts *)

(** X1 on a host without the file, with every variable in the environment. *)
Lemma missing_dotenv_is_fatal_witness :
  process no_dotenv [GET "/"]
    (start [("PORT", "8080"); ("DATABASE_URL", "postgres://localhost/rsvp")]) =
  (Exit 1,
   add_events (start [("PORT", "8080"); ("DATABASE_URL", "postgres://localhost/rsvp")])
     [Log "open .env: no such file or directory"]).
Proof. apply (missing_dotenv_is_fatal no_dotenv). reflexivity. Defined.

(** X2 on the users file: a PORT that is set is kept, HOME that no line names
    stays unset. *)
Lemma loadEnv_changes_only_unset_named_keys_witness :
  exists st',
    loadEnv one_user (start [("PORT", "9090")]) = (Ret tt, st') /\
    environ st' !! "PORT" = Some "9090" /\
    environ st' !! "HOME" = None.
Proof.
  exists (snd (loadEnv one_user (start [("PORT", "9090")]))).
  assert (loadEnv one_user (start [("PORT", "9090")]) =
          (Ret tt, snd (loadEnv one_user (start [("PORT", "9090")])))) as Hrun
    by (vm_compute; reflexivity).
  split; [exact Hrun|]. split.
  - apply (proj1 (loadEnv_changes_only_unset_named_keys one_user _ _ _ "PORT" Hrun)).
    vm_compute. reflexivity.
  - rewrite (proj2 (loadEnv_changes_only_unset_named_keys one_user _ _ _ "HOME" Hrun)).
    + vm_compute. reflexivity.
    + intros file Hfile. inversion Hfile; subst.
      repeat constructor; vm_compute; discriminate.
Defined.

(** X4 on the users file: PORT is set from the file and the log says so. *)
Lemma loadEnv_announces_what_it_sets_witness :
  exists st',
    loadEnv one_user (start []) = (Ret tt, st') /\
    In (Log (env_notice "PORT" "8080")) (trace st').
Proof.
  exists (snd (loadEnv one_user (start []))).
  split; [vm_compute; reflexivity|].
  apply (loadEnv_announces_what_it_sets one_user (start []) _ (Ret tt) "PORT" "8080");
    vm_compute; reflexivity.
Defined.

(** X6 on a tree whose second of three files cannot be read. *)
Lemma loadTemplates_dies_of_the_first_failure_witness :
  exists st',
    loadTemplates unreadable_template (start []) = (Exit 1, st') /\
    last (trace st') = Some (Log "read templates/b.tmpl: input/output error") /\
    conns st' = conns (start []) /\ environ st' = environ (start []).
Proof.
  apply (loadTemplates_dies_of_the_first_failure unreadable_template (start [])
           (firstn 3 (walkDir "." unreadable_tree))
           (skipn 4 (walkDir "." unreadable_tree))
           (file_visit "templates/b.tmpl" (Err "read templates/b.tmpl: input/output error"))).
  - vm_compute. reflexivity.
  - repeat constructor.
  - reflexivity.
Defined.

(** X8 on a tree whose one file has a body that does not parse. *)
Lemma every_file_name_is_in_the_namespace_witness :
  exists st',
    loadTemplates unparsable_template (start []) = (Ret tt, st') /\
    is_Some (rootTemplate st' !! "bad").
Proof.
  exists (snd (loadTemplates unparsable_template (start []))).
  split; [vm_compute; reflexivity|].
  apply (every_file_name_is_in_the_namespace unparsable_template (start []) _
           (Dir "." None [Dir "templates" None [File "bad.tmpl" (Ok "{{")]]) "bad");
    [reflexivity | vm_compute; reflexivity |].
  right. exists "templates/bad.tmpl", (Ok "{{"). split; [|reflexivity].
  eapply file_below; [left; reflexivity|].
  eapply file_below; [left; reflexivity|]. apply file_here.
Defined.

(** X9 on an empty namespace: the request to [/] ends the process, the
    request after it is not served. *)
Lemma request_without_hello_template_ends_serving_witness :
  for_each (serve one_user (admin_mux "/admin/" 1))
    ([GET "/admin/"] ++ GET "/" :: [GET "/admin/x"]) (start []) =
  (Exit 1,
   add_events (add_events (start []) [WriteBody "Admin foo"])
     [Query 1 users_query; Log "Rendering template hello"; Log (undefined_diag "hello")]).
Proof.
  apply (request_without_hello_template_ends_serving one_user (admin_mux "/admin/" 1)
           [GET "/admin/"] [GET "/admin/x"] (GET "/") 1 1%Z "Ada").
  - reflexivity.
  - discriminate.
  - vm_compute. reflexivity.
  - reflexivity.
  - vm_compute. reflexivity.
Defined.


(** X11 on a file that names DATABASE_URL only. *)
Lemma missing_PORT_stops_the_process_witness :
  exists st',
    process no_port [GET "/"] (start []) = (Exit 1, st') /\
    ~ started st' /\
    conns st' = 1.
Proof.
  exists (snd (process no_port [GET "/"] (start []))).
  assert (process no_port [GET "/"] (start []) =
          (Exit 1, snd (process no_port [GET "/"] (start [])))) as Hrun
    by (vm_compute; reflexivity).
  split; [exact Hrun|].
  destruct (missing_PORT_stops_the_process no_port [GET "/"] (start [])
              (snd (process no_port [GET "/"] (start []))) (Exit 1))
    as (_ & Hquiet & Hinit); [vm_compute; reflexivity | | exact Hrun |].
  - intros file Hfile. inversion Hfile; subst. repeat constructor. vm_compute. discriminate.
  - split; [apply Hquiet; intros [addr []]|].
    apply (Hinit (snd (init no_port (start [])))). vm_compute. reflexivity.
Defined.

(** X12 on a host whose database refuses every connection. *)
Lemma unreachable_database_stops_init_witness :
  exists st',
    process database_down [GET "/"] (start []) = (Exit 1, st') /\
    conns st' = conns (start []) /\
    exists evs, trace st' = trace (start []) ++ evs /\ Forall (fun e => is_Log e = true) evs.
Proof.
  exists (snd (process database_down [GET "/"] (start []))).
  assert (process database_down [GET "/"] (start []) =
          (Exit 1, snd (process database_down [GET "/"] (start [])))) as Hrun
    by (vm_compute; reflexivity).
  split; [exact Hrun|].
  apply (unreachable_database_stops_init database_down [GET "/"] (start []) _ (Exit 1));
    [|exact Hrun].
  intros url. eexists. reflexivity.
Defined.

(** X13 on a file that sets ADMIN_PATH to [/]. *)
Lemma process_panics_only_on_a_bad_admin_path_witness :
  exists msg st',
    process admin_at_root [GET "/"] (start []) = (Panic msg, st') /\
    lookup_env (environ st') "ADMIN_PATH" = Some "/" /\
    conns st' = 2.
Proof.
  exists "http: multiple registrations for /",
    (snd (process admin_at_root [GET "/"] (start []))).
  assert (process admin_at_root [GET "/"] (start []) =
          (Panic "http: multiple registrations for /",
           snd (process admin_at_root [GET "/"] (start [])))) as Hrun
    by (vm_compute; reflexivity).
  split; [exact Hrun|].
  destruct (process_panics_only_on_a_bad_admin_path admin_at_root _ _ _ _ Hrun)
    as [Ho|[Ho|(msg & _ & _ & Hc & _)]]; [discriminate Ho | discriminate Ho |].
  split; [vm_compute; reflexivity | exact Hc].
Defined.

(** X14 on an environment that sets ADMIN_PATH to the empty string. *)
Lemma bad_admin_path_panics_witness :
  exists msg st',
    main one_user [GET "/"] (start [("PORT", "8080"); ("ADMIN_PATH", "")]) = (Panic msg, st') /\
    conns st' = S (conns (start [("PORT", "8080"); ("ADMIN_PATH", "")])) /\
    trace st' =
    trace (start [("PORT", "8080"); ("ADMIN_PATH", "")]) ++
    [Log ("Running on port " +:+ "8080");
     Connect (default EmptyString
                (lookup_env (environ (start [("PORT", "8080"); ("ADMIN_PATH", "")]))
                   "DATABASE_URL"))
       (conns (start [("PORT", "8080"); ("ADMIN_PATH", "")]));
     Log ("Serving admin site from " +:+ "")].
Proof.
  apply (bad_admin_path_panics one_user [GET "/"]
           (start [("PORT", "8080"); ("ADMIN_PATH", "")]) "8080" "").
  - vm_compute. reflexivity.
  - reflexivity.
  - vm_compute. reflexivity.
  - left. reflexivity.
Defined.

(** X15 on an empty users table: the request to [/] ends the process, the
    request after it is not served. *)
Lemma failed_query_ends_serving_witness :
  for_each (serve no_users (admin_mux "/admin/" 1))
    ([GET "/admin/"] ++ GET "/" :: [GET "/admin/x"]) (start []) =
  (Exit 1,
   add_events (add_events (start []) [WriteBody "Admin foo"])
     [Query 1 users_query; Log ("Query failed: " +:+ "no rows in result set")]).
Proof.
  apply (failed_query_ends_serving no_users (admin_mux "/admin/" 1)
           [GET "/admin/"] [GET "/admin/x"] (GET "/") 1 "no rows in result set").
  - discriminate.
  - vm_compute. reflexivity.
  - reflexivity.
  - vm_compute. reflexivity.
Defined.

(** X16 with the default admin path. *)
Lemma routes_of_the_default_mux_witness :
  exists port mux st',
    main_setup one_user (start [("PORT", "8080")]) = (Ret (port, mux), st') /\
    mux_Handler mux (GET "/admin") = RedirectTo "/admin/" /\
    mux_Handler mux (GET "/admin/users") = Serve AdminHandlerRef /\
    mux_Handler mux (GET "/a//b") = RedirectTo "/a/b" /\
    mux_Handler mux (GET "/rsvp") = Serve (PrimaryHandler 0).
Proof.
  exists "8080", (admin_mux "/admin/" 0),
    (snd (main_setup one_user (start [("PORT", "8080")]))).
  assert (main_setup one_user (start [("PORT", "8080")]) =
          (Ret ("8080", admin_mux "/admin/" 0),
           snd (main_setup one_user (start [("PORT", "8080")])))) as Hrun
    by (vm_compute; reflexivity).
  split; [exact Hrun|].
  pose proof (fun r =>
    routes_of_the_default_mux one_user (start [("PORT", "8080")]) _ "8080" _ r
      Hrun eq_refl) as Hroute.
  split; [|split; [|split]].
  - rewrite (Hroute (GET "/admin")) by discriminate. vm_compute. reflexivity.
  - rewrite (Hroute (GET "/admin/users")) by discriminate. vm_compute. reflexivity.
  - rewrite (Hroute (GET "/a//b")) by discriminate. vm_compute. reflexivity.
  - rewrite (Hroute (GET "/rsvp")) by discriminate. vm_compute. reflexivity.
Defined.

(** X17 on a request to a path nothing was registered for. *)
Lemma ordinary_requests_are_never_not_found_witness :
  exists port mux st',
    main_setup one_user (start [("PORT", "8080")]) = (Ret (port, mux), st') /\
    mux_Handler mux (GET "/nowhere") <> NotFound /\
    exists evs,
      trace (snd (serve one_user mux (GET "/nowhere") st')) = trace st' ++ evs /\
      ~ In (WriteHeader 404) evs.
Proof.
  exists "8080", (admin_mux "/admin/" 0),
    (snd (main_setup one_user (start [("PORT", "8080")]))).
  assert (main_setup one_user (start [("PORT", "8080")]) =
          (Ret ("8080", admin_mux "/admin/" 0),
           snd (main_setup one_user (start [("PORT", "8080")])))) as Hrun
    by (vm_compute; reflexivity).
  split; [exact Hrun|].
  apply (ordinary_requests_are_never_not_found one_user (start [("PORT", "8080")]) _ _ _
           "8080" _ (GET "/nowhere")
           (fst (serve one_user (admin_mux "/admin/" 0) (GET "/nowhere")
                   (snd (main_setup one_user (start [("PORT", "8080")])))))
           Hrun); [discriminate | vm_compute; reflexivity].
Defined.

(** X18 on a host with one user and one request. *)
Lemma started_process_runs_on_the_loaded_environment_witness :
  exists st',
    process one_user [GET "/"] (start []) = (Ret tt, st') /\
    started st' /\
    exists s1 port evs,
      loadEnv one_user (start []) = (Ret tt, s1) /\
      environ st' = environ s1 /\
      lookup_env (environ s1) "PORT" = Some port /\
      trace st' = trace (start []) ++ evs /\
      List.filter is_Connect evs =
        [Connect (default EmptyString (lookup_env (environ s1) "DATABASE_URL"))
           (conns (start []));
         Connect (default EmptyString (lookup_env (environ s1) "DATABASE_URL"))
           (S (conns (start [])))] /\
      List.filter is_Listen evs = [Listen (":" +:+ port)].
Proof.
  exists (snd (process one_user [GET "/"] (start []))).
  split; [vm_compute; reflexivity|].
  assert (started (snd (process one_user [GET "/"] (start [])))) as Hs.
  { exists ":8080". vm_compute. tauto. }
  split; [exact Hs|].
  apply (started_process_runs_on_the_loaded_environment one_user [GET "/"] (start []) _
           (Ret tt)); [vm_compute; reflexivity | intros [addr []] | exact Hs].
Defined.

End Evaluations.
